(** * JSON pretty-print component: the tree materializer and its expansion controller

    A shallow embedding of the component class [JsonPrettyPrint] (payload
    processing, tree building, expansion state) and of its row component
    [JsonTreeNode].  Line numbers in the comments are those of the source
    file of [JsonPrettyPrint].

    - JavaScript strings are sequences of code units; the model uses Rocq
      [string], i.e. code units below 256.
    - JSON numbers are kept abstract: the component only ever applies
      [typeof] and [toString] to them.
    - [JSON.parse] is a host built-in; the controller is parametric in it.
    - [this.expandedNodes] (a JavaScript [Set] of strings) is a [gset string].
    - The component instance is a record ([Component]); every method is a
      function from the old instance state to the new one. *)

From Stdlib Require Import String Ascii List Arith Lia DecimalString DecimalNat Sorted.
From stdpp Require Import base gmap sets list strings.

#[local] Set Warnings "-register-all,-clear-no-such-hyp".

(** ** Host-language primitives *)

(** [Number.prototype.toString] on a non-negative integer (array indices,
    lengths and nesting levels inside template literals). *)
Definition decimal (n : nat) : string :=
  NilEmpty.string_of_uint (Nat.to_uint n).

Definition dquote : ascii := "034"%char.

(** The template literal that wraps a text in double quotes. *)
Definition quoted (s : string) : string :=
  String dquote (s +:+ String dquote "").

(** ECMAScript WhiteSpace and LineTerminator code units below 256:
    TAB, LF, VT, FF, CR, SP and NBSP. *)
Definition isWhiteSpace (c : ascii) : bool :=
  let n := nat_of_ascii c in
  ((9 <=? n) && (n <=? 13)) || (n =? 32) || (n =? 160).

Fixpoint trimStart (s : string) : string :=
  match s with
  | String c rest => if isWhiteSpace c then trimStart rest else s
  | EmptyString => EmptyString
  end.

(** [trimEnd] keeps a character when it is not white space or when something
    is kept after it. *)
Fixpoint trimEnd (s : string) : string :=
  match s with
  | String c rest =>
      match trimEnd rest with
      | EmptyString => if isWhiteSpace c then EmptyString else String c EmptyString
      | kept => String c kept
      end
  | EmptyString => EmptyString
  end.

(** The number of occurrences of a code unit in a text. *)
Fixpoint countChar (c : ascii) (s : string) : nat :=
  match s with
  | String x rest => (if Ascii.eqb x c then 1 else 0) + countChar c rest
  | EmptyString => 0
  end.


(** A text that consists of white space only (the empty text included). *)
Fixpoint allWhiteSpace (s : string) : bool :=
  match s with
  | String c rest => isWhiteSpace c && allWhiteSpace rest
  | EmptyString => true
  end.

(** [String.prototype.trim]. *)
Definition trim (s : string) : string := trimEnd (trimStart s).

(** A property key as the code handles it: [Object.entries] yields string
    keys, [Array.prototype.map] yields numeric indices, and the code passes
    either one on as [parentKey]. *)
Inductive JsKey : Type :=
| KStr (s : string)
| KNum (n : nat).

(** ToString, as applied by a template literal. *)
Definition toStr (k : JsKey) : string :=
  match k with
  | KStr s => s
  | KNum n => decimal n
  end.

(** ToBoolean: the empty string and the number 0 are falsy. *)
Definition truthy (k : JsKey) : bool :=
  match k with
  | KStr EmptyString => false
  | KStr _ => true
  | KNum O => false
  | KNum _ => true
  end.


(** ** JSON values *)

(** The value [JSON.parse] returns.  An object lists its own properties in
    the order [Object.entries] and [Object.keys] enumerate them. *)
Inductive JsonValue (JsNumber : Type) : Type :=
| JNull
| JBool (b : bool)
| JNumber (n : JsNumber)
| JString (s : string)
| JArray (items : list (JsonValue JsNumber))
| JObject (props : list (string * JsonValue JsNumber)).

Arguments JNull {JsNumber}.
Arguments JBool {JsNumber} b.
Arguments JNumber {JsNumber} n.
Arguments JString {JsNumber} s.
Arguments JArray {JsNumber} items.
Arguments JObject {JsNumber} props.

(** The two operations the component applies to a JSON number. *)
Class NumberOps (JsNumber : Type) : Type :=
  Number_toString : JsNumber -> string.

(** One row of the display tree (the object literal built at lines 182-191,
    195-204 and 216-226).  [node_isArray] is absent on the two root-leaf
    shapes. *)
Inductive DisplayNode : Type := mkDisplayNode {
  node_key : string;
  node_displayKey : JsKey;
  node_value : string;
  node_type : string;
  node_level : nat;
  node_hasChildren : bool;
  node_isExpanded : bool;
  node_isArray : option bool;
  node_children : list DisplayNode
}.

Section ValuePresentation.
Context {JsNumber : Type} `{!NumberOps JsNumber}.

#[local] Abbreviation Json := (JsonValue JsNumber).

Definition Array_isArray (v : Json) : bool :=
  match v with
  | JArray _ => true
  | _ => false
  end.

Definition typeof (v : Json) : string :=
  match v with
  | JNull => "object"
  | JBool _ => "boolean"
  | JNumber _ => "number"
  | JString _ => "string"
  | JArray _ => "object"
  | JObject _ => "object"
  end.

(** [Object.keys]: indices of an array (or of a string), names of an object. *)
Definition Object_keys (v : Json) : list string :=
  match v with
  | JArray items => map decimal (seq 0 (length items))
  | JObject props => map fst props
  | JString s => map decimal (seq 0 (String.length s))
  | _ => []
  end.

(** [hasChildren(value)], lines 238-241. *)
Definition hasChildren (value : Json) : bool :=
  match value with
  | JNull => false
  | JArray items => 0 <? length items
  | JObject _ => 0 <? length (Object_keys value)
  | _ => false
  end.

(** [getValueType(value)], lines 243-247. *)
Definition getValueType (value : Json) : string :=
  match value with
  | JNull => "null"
  | JArray _ => "array"
  | _ => typeof value
  end.

Definition hexDigit (n : nat) : ascii :=
  match n with
  | 0 => "0" | 1 => "1" | 2 => "2" | 3 => "3" | 4 => "4" | 5 => "5"
  | 6 => "6" | 7 => "7" | 8 => "8" | 9 => "9" | 10 => "a" | 11 => "b"
  | 12 => "c" | 13 => "d" | 14 => "e" | _ => "f"
  end%char.

(** One code unit inside [QuoteJSONString]. *)
Definition quoteChar (c : ascii) : string :=
  let n := nat_of_ascii c in
  if n =? 8 then "\b"
  else if n =? 9 then "\t"
  else if n =? 10 then "\n"
  else if n =? 12 then "\f"
  else if n =? 13 then "\r"
  else if n =? 34 then String "\" (String dquote "")
  else if n =? 92 then "\\"
  else if n <? 32 then "\u00" +:+ String (hexDigit (n / 16)) (String (hexDigit (n mod 16)) "")
  else String c "".

Fixpoint quoteChars (s : string) : string :=
  match s with
  | String c rest => quoteChar c +:+ quoteChars rest
  | EmptyString => EmptyString
  end.

Definition QuoteJSONString (s : string) : string :=
  String dquote (quoteChars s +:+ String dquote "").

Definition commaJoin (parts : list string) : string :=
  match parts with
  | [] => ""
  | p :: rest => fold_left (fun acc q => acc +:+ "," +:+ q) rest p
  end.

(** [JSON.stringify(value)] with no replacer and no indentation. *)
Fixpoint JSON_stringify (v : Json) : string :=
  match v with
  | JNull => "null"
  | JBool true => "true"
  | JBool false => "false"
  | JNumber n => Number_toString n
  | JString s => QuoteJSONString s
  | JArray items => "[" +:+ commaJoin (map JSON_stringify items) +:+ "]"
  | JObject props =>
      "{" +:+ commaJoin (map (fun kv => QuoteJSONString (fst kv) +:+ ":" +:+ JSON_stringify (snd kv)) props) +:+ "}"
  end.

(** [formatValue(value)], lines 249-263. *)
Definition formatValue (value : Json) : string :=
  match value with
  | JString s => quoted s
  | JBool true => "true"
  | JBool false => "false"
  | JNumber n => Number_toString n
  | JNull => "null"
  | _ => JSON_stringify value
  end.

(** [generateKey(path, level)], lines 265-268. *)
Definition generateKey (path : JsKey) (level : nat) : string :=
  toStr path +:+ "_" +:+ decimal level.

(** Line 211 (and 351): [parentKey ? `${parentKey}.${key}` : key]. *)
Definition fullPathOf (parentKey key : JsKey) : JsKey :=
  if truthy parentKey then KStr (toStr parentKey +:+ "." +:+ toStr key) else key.

(** Line 208 (and 348): the [key, value] pairs of a container, arrays by
    index, objects through [Object.entries]. *)
Definition entries (obj : Json) : list (JsKey * Json) :=
  match obj with
  | JArray items => imap (fun index item => (KNum index, item)) items
  | JObject props => map (fun kv => (KStr (fst kv), snd kv)) props
  | _ => []
  end.

(** The path handed down after descending through the keys [ks], starting
    from [parentKey]: line 211 applied once per level. *)
Definition extendPath (parentKey : JsKey) (ks : list JsKey) : JsKey :=
  fold_left fullPathOf ks parentKey.

Definition isContainer (obj : Json) : bool :=
  match obj with
  | JArray _ | JObject _ => true
  | _ => false
  end.

(** [obj.length]: defined on arrays only, and only read for them. *)
Definition arrayLength (obj : Json) : nat :=
  match obj with
  | JArray items => length items
  | _ => 0
  end.

End ValuePresentation.

(** ** TreeMaterializer *)

Section TreeMaterializer.
Context {JsNumber : Type} `{!NumberOps JsNumber}.

#[local] Abbreviation Json := (JsonValue JsNumber).

(** The row built for a root that is [null] (lines 182-191) or another
    primitive (lines 195-204). *)
Definition leafNode (obj : Json) (parentKey : JsKey) (level : nat) : DisplayNode :=
  {| node_key := generateKey parentKey level;
     node_displayKey := parentKey;
     node_value := match obj with JNull => "null" | _ => formatValue obj end;
     node_type := match obj with JNull => "null" | _ => typeof obj end;
     node_level := level;
     node_hasChildren := false;
     node_isExpanded := false;
     node_isArray := None;
     node_children := [] |}.

(** The body of the [forEach] callback, lines 210-233, for one entry
    [key, value] of [obj].  [isArray] and [objLength] are [Array.isArray(obj)]
    and [obj.length] of the enclosing container; [recur] is the recursive
    call [this.buildJsonTree(value, _, _)]. *)
Definition entryNode (expandedNodes : gset string) (isArray : bool) (objLength : nat)
    (parentKey : JsKey) (level : nat) (key : JsKey) (value : Json)
    (recur : JsKey -> nat -> list DisplayNode) : DisplayNode :=
  let fullPath := fullPathOf parentKey key in
  let nodeKey := generateKey fullPath level in
  let hasCh := hasChildren value in
  let isExpanded := bool_decide (nodeKey ∈ expandedNodes) in
  {| node_key := nodeKey;
     node_displayKey := key;
     node_value :=
       if hasCh
       then (if isArray
             then "[" +:+ decimal objLength +:+ " items]"
             else "{" +:+ decimal (length (Object_keys value)) +:+ " properties}")
       else formatValue value;
     node_type := getValueType value;
     node_level := level;
     node_hasChildren := hasCh;
     node_isExpanded := isExpanded;
     node_isArray := Some (Array_isArray value);
     node_children := if hasCh && isExpanded then recur fullPath (level + 1) else [] |}.

(** [buildJsonTree(obj, parentKey, level)], lines 178-236.  The set
    [this.expandedNodes] is read, never written. *)
Fixpoint buildJsonTree (expandedNodes : gset string) (obj : Json)
    (parentKey : JsKey) (level : nat) {struct obj} : list DisplayNode :=
  match obj with
  | JArray items =>
      (fix each (rest : list Json) (index : nat) {struct rest} : list DisplayNode :=
         match rest with
         | [] => []
         | item :: rest' =>
             entryNode expandedNodes true (length items) parentKey level
               (KNum index) item (buildJsonTree expandedNodes item)
             :: each rest' (S index)
         end) items 0
  | JObject props =>
      (fix each (rest : list (string * Json)) {struct rest} : list DisplayNode :=
         match rest with
         | [] => []
         | kv :: rest' =>
             entryNode expandedNodes false 0 parentKey level
               (KStr (fst kv)) (snd kv) (buildJsonTree expandedNodes (snd kv))
             :: each rest'
         end) props
  | _ => [leafNode obj parentKey level]
  end.

(** [addAllNodesToExpanded(obj, parentKey, level)], lines 342-359; the set is
    threaded through the traversal, each [add] being a union with a
    singleton. *)
Definition visitEntry (parentKey : JsKey) (level : nat) (key : JsKey) (value : Json)
    (recur : JsKey -> nat -> gset string -> gset string)
    (expandedNodes : gset string) : gset string :=
  let fullPath := fullPathOf parentKey key in
  let nodeKey := generateKey fullPath level in
  if hasChildren value
  then recur fullPath (level + 1) ({[ nodeKey ]} ∪ expandedNodes)
  else expandedNodes.

Fixpoint addAllNodesToExpanded (obj : Json) (parentKey : JsKey) (level : nat)
    (expandedNodes : gset string) {struct obj} : gset string :=
  match obj with
  | JArray items =>
      (fix each (rest : list Json) (index : nat) (acc : gset string) {struct rest} : gset string :=
         match rest with
         | [] => acc
         | item :: rest' =>
             each rest' (S index)
               (visitEntry parentKey level (KNum index) item (addAllNodesToExpanded item) acc)
         end) items 0 expandedNodes
  | JObject props =>
      (fix each (rest : list (string * Json)) (acc : gset string) {struct rest} : gset string :=
         match rest with
         | [] => acc
         | kv :: rest' =>
             each rest'
               (visitEntry parentKey level (KStr (fst kv)) (snd kv) (addAllNodesToExpanded (snd kv)) acc)
         end) props expandedNodes
  | _ => expandedNodes
  end.

End TreeMaterializer.

(** ** Reading a display tree *)

(** The row reached from the top-level sequence by a path of row indices,
    descending through [children]. *)
Fixpoint nodeAt (tree : list DisplayNode) (rows : list nat) : option DisplayNode :=
  match rows with
  | [] => None
  | [i] => tree !! i
  | i :: below =>
      match tree !! i with
      | Some n => nodeAt (node_children n) below
      | None => None
      end
  end.

(** Every row of a display tree, parents before their children. *)
Fixpoint flattenNode (n : DisplayNode) : list DisplayNode :=
  n :: (fix each (ch : list DisplayNode) : list DisplayNode :=
          match ch with
          | [] => []
          | c :: rest => flattenNode c ++ each rest
          end) (node_children n).

Definition flatten (tree : list DisplayNode) : list DisplayNode :=
  concat (map flattenNode tree).

(** The laziness contract of one row: a row that is not expanded has no
    children, and children are present exactly on rows that are both
    expandable and expanded. *)
Definition lazinessContract (n : DisplayNode) : Prop :=
  (node_isExpanded n = false -> node_children n = []) /\
  (node_children n <> [] <-> node_hasChildren n = true /\ node_isExpanded n = true).

(** ** Positions of a document *)

Section Positions.
Context {JsNumber : Type}.

#[local] Abbreviation Json := (JsonValue JsNumber).

(** The value found by following entry indices from [obj]. *)
Fixpoint valueAt (obj : Json) (rows : list nat) : option Json :=
  match rows with
  | [] => Some obj
  | i :: below =>
      match entries obj !! i with
      | Some kv => valueAt (snd kv) below
      | None => None
      end
  end.

(** The keys met along the same path. *)
Fixpoint keysAt (obj : Json) (rows : list nat) : option (list JsKey) :=
  match rows with
  | [] => Some []
  | i :: below =>
      match entries obj !! i with
      | Some kv =>
          match keysAt (snd kv) below with
          | Some ks => Some (fst kv :: ks)
          | None => None
          end
      | None => None
      end
  end.




End Positions.

(** ** Objects as [JSON.parse] creates them *)

Section ObjectCreation.
Context {JsNumber : Type}.

#[local] Abbreviation Json := (JsonValue JsNumber).

(** An array index in the sense of ECMAScript: the canonical decimal text of
    an integer below 2^32 - 1. *)
Definition arrayIndex (s : string) : option N :=
  match NilEmpty.uint_of_string s with
  | Some d =>
      let n := N.of_uint d in
      if String.eqb (NilEmpty.string_of_uint (N.to_uint n)) s && (n <? 4294967295)%N
      then Some n
      else None
  | None => None
  end.

(** CreateDataProperty for one member of an object literal: a repeated name
    keeps its place and takes the later value. *)
Fixpoint defineMember (created : list (string * Json)) (member : string * Json)
    : list (string * Json) :=
  match created with
  | [] => [member]
  | kv :: rest =>
      if String.eqb (fst kv) (fst member)
      then (fst kv, snd member) :: rest
      else kv :: defineMember rest member
  end.

Fixpoint insertByIndex (n : N) (kv : string * Json) (sorted : list (N * (string * Json)))
    : list (N * (string * Json)) :=
  match sorted with
  | [] => [(n, kv)]
  | (m, kv') :: rest =>
      if (n <? m)%N then (n, kv) :: sorted else (m, kv') :: insertByIndex n kv rest
  end.

Fixpoint indexProperties (created : list (string * Json)) : list (N * (string * Json)) :=
  match created with
  | [] => []
  | kv :: rest =>
      match arrayIndex (fst kv) with
      | Some n => insertByIndex n kv (indexProperties rest)
      | None => indexProperties rest
      end
  end.

Definition isNamedProperty (kv : string * Json) : bool :=
  match arrayIndex (fst kv) with
  | Some _ => false
  | None => true
  end.

(** OrdinaryOwnPropertyKeys: array-index names in ascending numeric order,
    then the other names in order of creation. *)
Definition ownPropertyOrder (created : list (string * Json)) : list (string * Json) :=
  map snd (indexProperties created) ++ List.filter isNamedProperty created.

(** The object [JSON.parse] returns for an object literal whose members, in
    the order of the text, are [members]. *)
Definition JSON_object (members : list (string * Json)) : Json :=
  JObject (ownPropertyOrder (fold_left defineMember members [])).

End ObjectCreation.

(** ** ExpansionController *)

(** The result of [JSON.parse(text)]: a value, or a thrown [SyntaxError]
    with its message. *)
Inductive ParseResult (JsNumber : Type) : Type :=
| Parsed (value : JsonValue JsNumber)
| SyntaxError (message : string).

Arguments Parsed {JsNumber} value.
Arguments SyntaxError {JsNumber} message.

Class JsonParser (JsNumber : Type) : Type :=
  JSON_parse : string -> ParseResult JsNumber.

(** The fields of the component instance that the tree logic reads or
    writes (lines 7-18). *)
Record Component : Type := mkComponent {
  fieldApiName : string;
  jsonTree : list DisplayNode;
  error : option string;
  expandedNodes : gset string;
  fieldData : option string;
  allExpanded : bool
}.

Definition set_jsonTree (tree : list DisplayNode) (this : Component) : Component :=
  mkComponent (fieldApiName this) tree (error this) (expandedNodes this)
    (fieldData this) (allExpanded this).

Definition set_error (e : option string) (this : Component) : Component :=
  mkComponent (fieldApiName this) (jsonTree this) e (expandedNodes this)
    (fieldData this) (allExpanded this).

Definition set_expandedNodes (nodes : gset string) (this : Component) : Component :=
  mkComponent (fieldApiName this) (jsonTree this) (error this) nodes
    (fieldData this) (allExpanded this).

Definition set_fieldData (data : option string) (this : Component) : Component :=
  mkComponent (fieldApiName this) (jsonTree this) (error this) (expandedNodes this)
    data (allExpanded this).

Definition set_allExpanded (b : bool) (this : Component) : Component :=
  mkComponent (fieldApiName this) (jsonTree this) (error this) (expandedNodes this)
    (fieldData this) b.

(** The instance as the class initialises it, for a given [fieldApiName]. *)
Definition newComponent (field : string) : Component :=
  mkComponent field [] None ∅ None false.

(** What the record wire hands to [wiredRecord]: nothing yet, the record
    (reduced to the three things lines 54-66 read from it), or an error with
    the message [error.body?.message || error.message]. *)
Record RecordData : Type := mkRecordData {
  rd_fieldValue : option string;
  rd_recordTypeAvailable : bool;
  rd_rootValue : option string
}.

Inductive WireResult : Type :=
| WirePending
| WireData (data : RecordData)
| WireError (message : string).

(** [x || null] on a text that may be absent. *)
Definition orNull (x : option string) : option string :=
  match x with
  | Some EmptyString => None
  | _ => x
  end.

Section ExpansionController.
Context {JsNumber : Type} `{!NumberOps JsNumber} `{!JsonParser JsNumber}.

(** [processPayload(payload)], lines 158-176. *)
Definition processPayload (payload : option string) (this : Component) : Component :=
  match payload with
  | None => set_jsonTree [] this
  | Some text =>
      if String.eqb text "" || String.eqb (trim text) "" || String.eqb text "{}"
      then set_jsonTree [] this
      else
        match JSON_parse text with
        | Parsed parsedJson =>
            set_jsonTree (buildJsonTree (expandedNodes this) parsedJson (KStr "") 0) this
        | SyntaxError message =>
            set_jsonTree [] (set_error (Some ("Invalid JSON: " +:+ message)) this)
        end
  end.

(** [processCurrentSelection()], lines 307-309. *)
Definition processCurrentSelection (this : Component) : Component :=
  processPayload (fieldData this) this.

(** [rebuildTree()], lines 302-305. *)
Definition rebuildTree (this : Component) : Component :=
  processCurrentSelection this.

(** [updateAllExpandedState()], lines 292-300. *)
Definition updateAllExpandedState (this : Component) : Component :=
  if size (expandedNodes this) =? 0
  then set_allExpanded false this
  else set_allExpanded false this.

(** [handleToggleExpansion(event)], lines 270-290, with
    [nodeKey = event.detail.nodeKey]. *)
Definition handleToggleExpansion (nodeKey : string) (this : Component) : Component :=
  let toggled :=
    if bool_decide (nodeKey ∈ expandedNodes this)
    then set_expandedNodes (expandedNodes this ∖ {[ nodeKey ]}) this
    else set_expandedNodes ({[ nodeKey ]} ∪ expandedNodes this) this in
  rebuildTree (updateAllExpandedState toggled).

(** [expandAllNodes()], lines 330-340. *)
Definition expandAllNodes (this : Component) : Component :=
  match fieldData this with
  | None => this
  | Some EmptyString => this
  | Some selectedData =>
      match JSON_parse selectedData with
      | Parsed parsedJson =>
          set_expandedNodes
            (addAllNodesToExpanded parsedJson (KStr "") 0 (expandedNodes this)) this
      | SyntaxError _ => this
      end
  end.

(** [handleExpandCollapseAll()], lines 312-328. *)
Definition handleExpandCollapseAll (this : Component) : Component :=
  let switched :=
    if allExpanded this
    then set_allExpanded false (set_expandedNodes ∅ this)
    else set_allExpanded true (expandAllNodes this) in
  processCurrentSelection switched.

(** [wiredRecord({ error, data })], lines 39-85. *)
Definition wiredRecord (result : WireResult) (this : Component) : Component :=
  match result with
  | WireData data =>
      let cleared := set_error None this in
      let fromFields := set_fieldData (orNull (rd_fieldValue data)) cleared in
      let extracted :=
        match fieldData fromFields with
        | None =>
            if rd_recordTypeAvailable data
            then set_fieldData (orNull (rd_rootValue data)) fromFields
            else fromFields
        | Some _ => fromFields
        end in
      processCurrentSelection extracted
  | WireError message =>
      set_fieldData None
        (set_jsonTree []
           (set_error
              (Some ("Failed to load field '" +:+ fieldApiName this +:+ "': " +:+ message))
              this))
  | WirePending => this
  end.

(** The getter [hasPayload], lines 99-108. *)
Definition hasPayload (this : Component) : bool :=
  (0 <? length (jsonTree this))
  && negb (match error this with
           | None => false
           | Some EmptyString => false
           | Some _ => true
           end).

End ExpansionController.

(** The row component's [handleToggle], jsonTreeNode.js lines 65-79: the node
    key it sends to the controller, if any. *)
Definition JsonTreeNode_handleToggle (node : DisplayNode) : option string :=
  if node_hasChildren node then Some (node_key node) else None.

(** ** The other getters of the row component *)

(** [nodeContentClasses], jsonTreeNode.js lines 11-17. *)
Definition nodeContentClasses (node : DisplayNode) : string :=
  if node_hasChildren node then "node-content expandable" else "node-content".

(** [expandIcon], jsonTreeNode.js lines 20-22. *)
Definition expandIcon (node : DisplayNode) : string :=
  if node_isExpanded node then "utility:chevrondown" else "utility:chevronright".

(** [showChildren], jsonTreeNode.js lines 24-26. *)
Definition showChildren (node : DisplayNode) : bool :=
  node_hasChildren node && node_isExpanded node && (0 <? length (node_children node)).

(** [keyClasses], jsonTreeNode.js lines 28-34; an absent [isArray] is
    falsy. *)
Definition keyClasses (node : DisplayNode) : string :=
  match node_isArray node with
  | Some true => "json-key array-key"
  | _ => "json-key"
  end.

(** [valueClasses], jsonTreeNode.js lines 36-63: a [switch] on [node.type]. *)
Definition valueClasses (node : DisplayNode) : string :=
  let type := node_type node in
  "json-value" +:+
  (if String.eqb type "string" then " string-value"
   else if String.eqb type "number" then " number-value"
   else if String.eqb type "boolean" then " boolean-value"
   else if String.eqb type "null" then " null-value"
   else if String.eqb type "object" then " object-value"
   else if String.eqb type "array" then " array-value"
   else " default-value").

(** [handleChildToggle], jsonTreeNode.js lines 81-90: the event of a child
    row is dispatched again with the same detail. *)
Definition JsonTreeNode_handleChildToggle (nodeKey : string) : string := nodeKey.

(** ** The raw view, the clipboard and the labels *)

Definition newline : string := String "010"%char "".

Definition joinWith (sep : string) (parts : list string) : string :=
  match parts with
  | [] => ""
  | p :: rest => fold_left (fun acc q => acc +:+ sep +:+ q) rest p
  end.

(** A notification raised through [showToast], lines 434-443 (the mode is
    always [dismissable]). *)
Record Toast : Type := mkToast {
  toast_title : string;
  toast_message : string;
  toast_variant : string
}.

(** What [handleCopyToClipboard] does to the outside, in order: a call of
    [navigator.clipboard.writeText], a call of [copyToClipboardLegacy], a
    toast. *)
Inductive CopyEffect : Type :=
| TryWriteText (text : string)
| TryLegacyCopy (text : string)
| RaiseToast (toast : Toast).

(** What the browser answers: whether [navigator.clipboard] exists in a
    secure context, whether [writeText] resolves, and whether
    [document.execCommand('copy')] reports success. *)
Record ClipboardHost : Type := mkClipboardHost {
  modernClipboard : bool;
  writeTextResolves : bool;
  execCommandSucceeds : bool
}.

(** [copyToClipboardLegacy(text)], lines 403-426: [true] when it returns,
    [false] when it throws [execCommand copy failed]. *)
Definition copyToClipboardLegacy (host : ClipboardHost) (text : string) : bool :=
  execCommandSucceeds host.

Definition isToast (e : CopyEffect) : bool :=
  match e with
  | RaiseToast _ => true
  | _ => false
  end.

Definition copiedToast : Toast :=
  mkToast "Copied!" "JSON data copied to clipboard successfully." "success".

Definition noDataToast : Toast :=
  mkToast "No data to copy" "The selected field is empty." "warning".

Definition copyFailedToast : Toast :=
  mkToast "Copy Failed"
    "Unable to copy data to clipboard. Please manually select and copy the text." "error".

(** [/_/g] replaced by a space. *)
Fixpoint replaceUnderscores (s : string) : string :=
  match s with
  | String c rest =>
      String (if Ascii.eqb c "_"%char then " "%char else c) (replaceUnderscores rest)
  | EmptyString => EmptyString
  end.

(** [/__c$/] replaced by the empty text: the suffix is removed when, and
    only where, the text ends with it. *)
Fixpoint stripCustomSuffix (s : string) : string :=
  match s with
  | String c rest => if String.eqb s "__c" then EmptyString else String c (stripCustomSuffix rest)
  | EmptyString => EmptyString
  end.

(** The cosmetic fields of the instance: the labels of [objectInfo.fields],
    the label and api name of [fieldDefinition], and [showRawFormat]. *)
Record Presentation : Type := mkPresentation {
  objectInfo : option (gmap string string);
  fieldDefinition : option (string * string);
  showRawFormat : bool
}.

Definition newPresentation : Presentation := mkPresentation None None false.

(** What the object-info wire hands to [wiredObjectInfo]. *)
Inductive ObjectInfoResult : Type :=
| InfoPending
| InfoData (fields : gmap string string)
| InfoError.

(** [extractFieldDefinition(recordData)], lines 88-97; [fieldInfo] is
    [recordData.fields[this.fieldApiName]], absent or with its
    [displayValue]. *)
Definition extractFieldDefinition (fieldInfo : option (option string)) (this : Component)
    (view : Presentation) : Presentation :=
  match fieldInfo with
  | Some displayValue =>
      let label :=
        match displayValue with
        | Some (String c rest) => String c rest
        | _ => fieldApiName this
        end in
      mkPresentation (objectInfo view) (Some (label, fieldApiName this)) (showRawFormat view)
  | None => view
  end.

(** The last resort of [currentFieldLabel], line 122. *)
Definition labelFromApiName (apiName : string) : string :=
  match replaceUnderscores (stripCustomSuffix apiName) with
  | EmptyString => "JSON Field"
  | label => label
  end.

(** The getter [currentFieldLabel], lines 110-123. *)
Definition currentFieldLabel (this : Component) (view : Presentation) : string :=
  match
    match objectInfo view with
    | Some fields => fields !! fieldApiName this
    | None => None
    end
  with
  | Some label => label
  | None =>
      match fieldDefinition view with
      | Some (String c rest, _) => String c rest
      | _ => labelFromApiName (fieldApiName this)
      end
  end.

(** The getters of lines 125-139. *)
Definition expandCollapseButtonLabel (this : Component) : string :=
  if allExpanded this then "Collapse All" else "Expand All".

Definition expandCollapseIcon (this : Component) : string :=
  if allExpanded this then "utility:collapse_all" else "utility:expand_all".

Definition formatToggleIcon (view : Presentation) : string :=
  if showRawFormat view then "utility:preview" else "utility:text".

Definition formatToggleLabel (view : Presentation) : string :=
  if showRawFormat view then "Show Pretty Format" else "Show Raw JSON".

(** [handleFormatToggle()], lines 428-432. *)
Definition handleFormatToggle (view : Presentation) : Presentation :=
  mkPresentation (objectInfo view) (fieldDefinition view) (negb (showRawFormat view)).

Section RawViewAndClipboard.
Context {JsNumber : Type} `{!NumberOps JsNumber} `{!JsonParser JsNumber}.

#[local] Abbreviation Json := (JsonValue JsNumber).

(** [JSON.stringify(value, null, 2)] below the indentation [indent]: an
    empty container prints closed; otherwise each member goes on a line of
    its own, two spaces deeper, and a name is followed by a colon and a
    space. *)
Fixpoint JSON_stringify_indented (indent : string) (v : Json) : string :=
  match v with
  | JNull => "null"
  | JBool true => "true"
  | JBool false => "false"
  | JNumber n => Number_toString n
  | JString s => QuoteJSONString s
  | JArray items =>
      match items with
      | [] => "[]"
      | _ =>
          "[" +:+ newline +:+ (indent +:+ "  ")
          +:+ joinWith ("," +:+ newline +:+ (indent +:+ "  "))
                (map (JSON_stringify_indented (indent +:+ "  ")) items)
          +:+ newline +:+ indent +:+ "]"
      end
  | JObject props =>
      match props with
      | [] => "{}"
      | _ =>
          "{" +:+ newline +:+ (indent +:+ "  ")
          +:+ joinWith ("," +:+ newline +:+ (indent +:+ "  "))
                (map (fun kv => QuoteJSONString (fst kv) +:+ ": "
                                +:+ JSON_stringify_indented (indent +:+ "  ") (snd kv))
                   props)
          +:+ newline +:+ indent +:+ "}"
      end
  end.

(** The getter [formattedRawJson], lines 141-151. *)
Definition formattedRawJson (this : Component) : string :=
  match fieldData this with
  | None => ""
  | Some EmptyString => ""
  | Some text =>
      match JSON_parse text with
      | Parsed parsedJson => JSON_stringify_indented "" parsedJson
      | SyntaxError _ => text
      end
  end.

(** [handleCopyToClipboard()], lines 361-401, as the sequence of its
    effects; the instance is left as it is. *)
Definition handleCopyToClipboard (host : ClipboardHost) (this : Component) : list CopyEffect :=
  match fieldData this with
  | None => [RaiseToast noDataToast]
  | Some jsonData =>
      if String.eqb jsonData "" || String.eqb (trim jsonData) "" || String.eqb jsonData "{}"
      then [RaiseToast noDataToast]
      else
        let textToCopy :=
          match JSON_parse jsonData with
          | Parsed parsedJson => JSON_stringify_indented "" parsedJson
          | SyntaxError _ => jsonData
          end in
        let legacy :=
          TryLegacyCopy textToCopy
          :: (if copyToClipboardLegacy host textToCopy
              then [RaiseToast copiedToast]
              else [RaiseToast copyFailedToast]) in
        if modernClipboard host
        then TryWriteText textToCopy
             :: (if writeTextResolves host then [RaiseToast copiedToast] else legacy)
        else legacy
  end.

(** [wiredObjectInfo({ error, data })], lines 22-31. *)
Definition wiredObjectInfo (result : ObjectInfoResult) (this : Component)
    (view : Presentation) : Component * Presentation :=
  match result with
  | InfoData fields =>
      (processCurrentSelection this,
       mkPresentation (Some fields) (fieldDefinition view) (showRawFormat view))
  | InfoError =>
      (this, mkPresentation None (fieldDefinition view) (showRawFormat view))
  | InfoPending => (this, view)
  end.

End RawViewAndClipboard.

Section InstanceInvariant.
Context {JsNumber : Type} `{!JsonParser JsNumber}.

(** The field text is one on which line 161 does not return early and
    [JSON.parse] throws. *)
Definition malformedFieldText (this : Component) : Prop :=
  exists text message,
    fieldData this = Some text /\
    allWhiteSpace text = false /\ text <> "{}" /\
    JSON_parse text = SyntaxError message.

(** What holds of the instance between two handlers: the field text is never
    the empty text, and while an error is set the tree is empty and the
    error stems from a failed fetch (no field text) or from a malformed
    field text. *)
Definition instanceInvariant (this : Component) : Prop :=
  fieldData this <> Some "" /\
  (error this = None \/
   (jsonTree this = [] /\ (fieldData this = None \/ malformedFieldText this))).

End InstanceInvariant.

(** ** Sample documents *)

(** For closed examples the JSON numbers are the naturals, printed in
    decimal. *)
#[global] Instance natNumbers : NumberOps nat := decimal.

(** [{"a":1,"b":{"c":2}}], the scenario document of the specification. *)
Definition scenarioDoc : JsonValue nat :=
  JObject [("a", JNumber 1); ("b", JObject [("c", JNumber 2)])].

Definition scenarioText : string :=
  "{" +:+ quoted "a" +:+ ":1," +:+ quoted "b" +:+ ":{" +:+ quoted "c" +:+ ":2}}".


(** [{"a":[1,2]}]: an array inside an object. *)
Definition arrayInObjectDoc : JsonValue nat :=
  JObject [("a", JArray [JNumber 1; JNumber 2])].

(** [[{"x":1},{"y":2},{"z":3}]]: objects inside an array. *)
Definition objectsInArrayDoc : JsonValue nat :=
  JArray [JObject [("x", JNumber 1)]; JObject [("y", JNumber 2)]; JObject [("z", JNumber 3)]].

(** [[[1],[2,3,4]]]: arrays of one and of three items inside an array of
    two. *)
Definition arraysInArrayDoc : JsonValue nat :=
  JArray [JArray [JNumber 1]; JArray [JNumber 2; JNumber 3; JNumber 4]].

(** [{"e":{},"f":[]}]: an empty object and an empty array as entry values. *)
Definition emptiesDoc : JsonValue nat :=
  JObject [("e", JObject []); ("f", JArray [])].

(** The members of [{"b":1,"1":2}] in the order of the text. *)
Definition indexNamedMembers : list (string * JsonValue nat) :=
  [("b", JNumber 1); ("1", JNumber 2)].

(** A stand-in for [JSON.parse] on the texts the examples use: the scenario
    document, [null], and two texts on which [JSON.parse] throws (a single
    space and [{invalid]).  Any other text is reported as malformed. *)
#[global] Instance sampleParser : JsonParser nat := fun text =>
  if String.eqb text scenarioText then Parsed scenarioDoc
  else if String.eqb text "null" then Parsed JNull
  else if String.eqb text " " then SyntaxError "Unexpected end of JSON input"
  else SyntaxError "Unexpected token i in JSON at position 1".

(** * Properties *)

(** ** Induction over a document through its entries *)

Section DocumentInduction.
Context {JsNumber : Type}.

#[local] Abbreviation Json := (JsonValue JsNumber).

Lemma Json_entries_ind (P : Json -> Prop) :
  (forall obj, (forall i kv, entries obj !! i = Some kv -> P (snd kv)) -> P obj) ->
  forall v, P v.
Proof.
  intros step. fix IH 1. intros v. apply step. destruct v as [ | b | n | s | items | props]; simpl;
    try (intros i kv Hl; rewrite lookup_nil in Hl; discriminate).
  - assert (Hall : Forall P items).
    { induction items as [ | item items IHitems]; constructor; [apply IH | exact IHitems]. }
    intros i kv Hl. rewrite list_lookup_imap in Hl.
    destruct (items !! i) as [item | ] eqn:Hi; simpl in Hl; [ | discriminate].
    injection Hl as <-. simpl.
    eapply Forall_lookup_1; eauto.
  - assert (Hall : Forall (fun kv => P (snd kv)) props).
    { induction props as [ | kv props IHprops]; constructor; [apply IH | exact IHprops]. }
    intros i kv Hl. rewrite list_lookup_fmap in Hl.
    destruct (props !! i) as [kv' | ] eqn:Hi; simpl in Hl; [ | discriminate].
    injection Hl as <-. simpl.
    apply (Forall_lookup_1 _ _ _ _ Hall Hi).
Qed.

Lemma entries_length_array (items : list Json) :
  length (entries (JArray items)) = length items.
Proof. simpl. apply length_imap. Qed.

Lemma entries_length_object (props : list (string * Json)) :
  length (entries (JObject props)) = length props.
Proof. simpl. apply length_map. Qed.

End DocumentInduction.

(** ** Texts: separators and decimal numerals *)

Lemma append_cons (c : ascii) (s t : string) : String c s +:+ t = String c (s +:+ t).
Proof. reflexivity. Qed.

Lemma append_empty_l (t : string) : "" +:+ t = t.
Proof. reflexivity. Qed.



Lemma countChar_cons (c x : ascii) (s : string) :
  countChar c (String x s) = (if Ascii.eqb x c then 1 else 0) + countChar c s.
Proof. reflexivity. Qed.

Lemma countChar_append (c : ascii) (a b : string) :
  countChar c (a +:+ b) = countChar c a + countChar c b.
Proof.
  induction a as [ | x a IH]; [reflexivity | ].
  rewrite append_cons, !countChar_cons, IH. lia.
Qed.

Lemma countChar_head (c : ascii) (s : string) : countChar c (String c s) = S (countChar c s).
Proof. now rewrite countChar_cons, Ascii.eqb_refl. Qed.


(** The text before the last separator is determined when the tails hold no
    separator. *)
Lemma split_at_last (c : ascii) (a b d d' : string) :
  countChar c d = 0 -> countChar c d' = 0 ->
  a +:+ String c d = b +:+ String c d' -> a = b /\ d = d'.
Proof.
  intros Hd Hd'. revert b. induction a as [ | x a IH]; intros [ | y b];
    rewrite ?append_cons, ?append_empty_l; intros E.
  - injection E as ->. now split.
  - injection E as -> ->. rewrite countChar_append, countChar_head in Hd. lia.
  - injection E as -> <-. rewrite countChar_append, countChar_head in Hd'. lia.
  - injection E as -> E. destruct (IH _ E) as [-> ->]. now split.
Qed.


Lemma countChar_uint (c : ascii) (d : Decimal.uint) :
  (nat_of_ascii c <? 48) || (57 <? nat_of_ascii c) = true ->
  countChar c (NilEmpty.string_of_uint d) = 0.
Proof.
  intros Hc. induction d; cbn [NilEmpty.string_of_uint]; try reflexivity;
    rewrite countChar_cons, IHd;
    match goal with
    | |- context [Ascii.eqb ?x c] => destruct (Ascii.eqb x c) eqn:E
    end; try reflexivity;
    apply Ascii.eqb_eq in E; subst c; discriminate.
Qed.

Lemma countChar_decimal (c : ascii) (n : nat) :
  (nat_of_ascii c <? 48) || (57 <? nat_of_ascii c) = true ->
  countChar c (decimal n) = 0.
Proof. apply countChar_uint. Qed.

Lemma decimal_inj (n m : nat) : decimal n = decimal m -> n = m.
Proof.
  unfold decimal. intros E. apply DecimalNat.Unsigned.to_uint_inj.
  apply (f_equal NilEmpty.uint_of_string) in E. rewrite !NilEmpty.usu in E. now injection E.
Qed.

Lemma decimal_nonempty (n : nat) : decimal n <> "".
Proof.
  unfold decimal. intros E. apply (f_equal NilEmpty.uint_of_string) in E.
  rewrite NilEmpty.usu in E. simpl in E. injection E as E.
  pose proof (f_equal Nat.of_uint E) as E0. rewrite DecimalNat.Unsigned.of_to in E0.
  subst n. discriminate.
Qed.

(** ** The materializer, entry by entry *)

Section MaterializerFacts.
Context {JsNumber : Type} `{!NumberOps JsNumber}.

#[local] Abbreviation Json := (JsonValue JsNumber).

Implicit Types (E : gset string) (obj value : Json) (parentKey key : JsKey) (level : nat).

(** The [forEach] loop of [buildJsonTree] is a map over [entries]. *)
Lemma buildJsonTree_entries E obj parentKey level :
  isContainer obj = true ->
  buildJsonTree E obj parentKey level =
  map (fun kv => entryNode E (Array_isArray obj) (arrayLength obj) parentKey level
                   (fst kv) (snd kv) (buildJsonTree E (snd kv)))
      (entries obj).
Proof.
  destruct obj as [ | b | n | s | items | props]; try discriminate; intros _; simpl.
  - generalize (length items) as len. intros len.
    change (imap (fun index item => (KNum index, item)) items)
      with (imap (fun index (item : Json) => (KNum (0 + index), item)) items).
    generalize 0 as start. induction items as [ | item items IH]; intros start; [reflexivity | ].
    simpl. rewrite Nat.add_0_r. f_equal. rewrite IH. f_equal.
    apply imap_ext. intros i x _. simpl. f_equal. f_equal. lia.
  - induction props as [ | kv props IH]; [reflexivity | ]. simpl. now rewrite IH.
Qed.

(** The [forEach] loop of [addAllNodesToExpanded] is a left fold over
    [entries]. *)
Lemma addAllNodesToExpanded_entries obj parentKey level E :
  addAllNodesToExpanded obj parentKey level E =
  fold_left (fun acc kv => visitEntry parentKey level (fst kv) (snd kv)
                             (addAllNodesToExpanded (snd kv)) acc)
            (entries obj) E.
Proof.
  destruct obj as [ | b | n | s | items | props]; try reflexivity; simpl.
  - change (imap (fun index item => (KNum index, item)) items)
      with (imap (fun index (item : Json) => (KNum (0 + index), item)) items).
    generalize 0 as start. revert E.
    induction items as [ | item items IH]; intros E start; [reflexivity | ].
    simpl. rewrite Nat.add_0_r. rewrite IH. f_equal.
    apply imap_ext. intros i x _. simpl. f_equal. f_equal. lia.
  - revert E. induction props as [ | kv props IH]; intros E; [reflexivity | ]. simpl. now rewrite IH.
Qed.

Lemma hasChildren_entries value :
  hasChildren value = true <-> entries value <> [].
Proof.
  destruct value as [ | b | n | s | items | props]; simpl; try (split; [discriminate | congruence]).
  - destruct items; simpl; split; (discriminate || congruence || reflexivity).
  - destruct props; simpl; split; (discriminate || congruence || reflexivity).
Qed.

Lemma hasChildren_container value : hasChildren value = true -> isContainer value = true.
Proof. destruct value; simpl; (discriminate || reflexivity). Qed.

Lemma entries_container obj i kv : entries obj !! i = Some kv -> isContainer obj = true.
Proof. destruct obj; simpl; try reflexivity; rewrite lookup_nil; discriminate. Qed.

Lemma entries_hasChildren obj i kv : entries obj !! i = Some kv -> hasChildren obj = true.
Proof. intros H. apply hasChildren_entries. intros E. rewrite E, lookup_nil in H. discriminate. Qed.

(** A container with an entry materializes to at least one row. *)
Lemma buildJsonTree_nonempty E value parentKey level :
  hasChildren value = true -> buildJsonTree E value parentKey level <> [].
Proof.
  intros H. rewrite buildJsonTree_entries by now apply hasChildren_container.
  apply hasChildren_entries in H. destruct (entries value); [congruence | discriminate].
Qed.

Lemma buildJsonTree_lookup E obj parentKey level i kv :
  entries obj !! i = Some kv ->
  buildJsonTree E obj parentKey level !! i =
  Some (entryNode E (Array_isArray obj) (arrayLength obj) parentKey level
          (fst kv) (snd kv) (buildJsonTree E (snd kv))).
Proof.
  intros H. rewrite buildJsonTree_entries by (eapply entries_container; eauto).
  rewrite list_lookup_fmap, H. reflexivity.
Qed.

Lemma buildJsonTree_lookup_inv E obj parentKey level i n :
  isContainer obj = true ->
  buildJsonTree E obj parentKey level !! i = Some n ->
  exists kv, entries obj !! i = Some kv /\
    n = entryNode E (Array_isArray obj) (arrayLength obj) parentKey level
          (fst kv) (snd kv) (buildJsonTree E (snd kv)).
Proof.
  intros Hc. rewrite buildJsonTree_entries by assumption.
  rewrite list_lookup_fmap. destruct (entries obj !! i) as [kv | ]; simpl; [ | discriminate].
  intros [= <-]. now exists kv.
Qed.

Lemma buildJsonTree_leaf E obj parentKey level :
  isContainer obj = false ->
  buildJsonTree E obj parentKey level = [leafNode obj parentKey level].
Proof. destruct obj; simpl; (discriminate || reflexivity). Qed.

Lemma flattenNode_children (n : DisplayNode) :
  flattenNode n = n :: flatten (node_children n).
Proof.
  destruct n as [k dk v t l hc ie ia ch]. simpl. f_equal.
  unfold flatten. induction ch as [ | c ch IH]; simpl; [reflexivity | now rewrite IH].
Qed.

End MaterializerFacts.

(** ** Laziness *)

Section Laziness.
Context {JsNumber : Type} `{!NumberOps JsNumber}.

#[local] Abbreviation Json := (JsonValue JsNumber).

Lemma leafNode_lazy (obj : Json) parentKey level :
  lazinessContract (leafNode obj parentKey level).
Proof. split; simpl; [reflexivity | ]. split; [congruence | intros [? _]; discriminate]. Qed.

Lemma entryNode_lazy E isArray objLength parentKey level key (value : Json) :
  lazinessContract
    (entryNode E isArray objLength parentKey level key value (buildJsonTree E value)).
Proof.
  unfold lazinessContract, entryNode; simpl.
  destruct (hasChildren value) eqn:Hc, (bool_decide _) eqn:Hb; simpl;
    try (split; [try reflexivity; discriminate | split; [congruence | intros [? ?]; discriminate]]).
  split; [discriminate | ]. split; [now split | intros _].
  now apply buildJsonTree_nonempty.
Qed.

(** C4. Laziness of materialization: in the tree built from any value, under
    any expansion set, at any parent path and level, every row at every depth
    satisfies the laziness contract: a row with [isExpanded = false] has
    [children = []] whatever the underlying value holds, and a row has
    children if and only if it is both expandable ([hasChildren]) and
    expanded. *)
Theorem materialization_is_lazy (E : gset string) (obj : Json) (parentKey : JsKey) (level : nat) :
  Forall lazinessContract (flatten (buildJsonTree E obj parentKey level)).
Proof.
  revert parentKey level. induction obj as [obj IH] using Json_entries_ind.
  intros parentKey level. destruct (isContainer obj) eqn:Hc.
  - rewrite buildJsonTree_entries by assumption.
    unfold flatten. apply Forall_concat. rewrite !Forall_fmap.
    apply Forall_lookup_2. intros i kv Hkv. unfold compose.
    rewrite flattenNode_children. constructor; [apply entryNode_lazy | ].
    simpl. destruct (hasChildren (snd kv) && _); [eapply IH; eauto | constructor].
  - rewrite buildJsonTree_leaf by assumption.
    unfold flatten. cbn [map concat]. rewrite app_nil_r, flattenNode_children.
    constructor; [apply leafNode_lazy | constructor].
Qed.

End Laziness.

(** ** The controller *)

Lemma trimStart_blank (s : string) : allWhiteSpace s = true -> trimStart s = "".
Proof.
  induction s as [ | c s IH]; simpl; [reflexivity | ].
  intros [Hc Hs]%andb_prop. rewrite Hc. now apply IH.
Qed.

Lemma trimStart_blank_inv (s : string) : allWhiteSpace (trimStart s) = true -> allWhiteSpace s = true.
Proof.
  induction s as [ | c s IH]; simpl; [reflexivity | ].
  destruct (isWhiteSpace c) eqn:Hc; simpl.
  - exact IH.
  - rewrite Hc. discriminate.
Qed.

Lemma trimEnd_blank_inv (s : string) : trimEnd s = "" -> allWhiteSpace s = true.
Proof.
  induction s as [ | c s IH]; simpl; [reflexivity | ].
  destruct (trimEnd s); [ | discriminate].
  destruct (isWhiteSpace c); [ | discriminate].
  intros _. now apply IH.
Qed.

(** [payload.trim() === ''] holds exactly for the texts made of white space. *)
Lemma trim_blank (s : string) : trim s = "" <-> allWhiteSpace s = true.
Proof.
  unfold trim. split.
  - intros H. now apply trimStart_blank_inv, trimEnd_blank_inv.
  - intros H. now rewrite trimStart_blank.
Qed.

Section ControllerFacts.
Context {JsNumber : Type} `{!NumberOps JsNumber} `{!JsonParser JsNumber}.

Lemma processPayload_expandedNodes payload this :
  expandedNodes (processPayload payload this) = expandedNodes this.
Proof.
  unfold processPayload. destruct payload as [text | ]; [ | reflexivity].
  destruct (_ || _); [reflexivity | ]. now destruct (JSON_parse text).
Qed.

Lemma processPayload_allExpanded payload this :
  allExpanded (processPayload payload this) = allExpanded this.
Proof.
  unfold processPayload. destruct payload as [text | ]; [ | reflexivity].
  destruct (_ || _); [reflexivity | ]. now destruct (JSON_parse text).
Qed.

Lemma processPayload_fieldData payload this :
  fieldData (processPayload payload this) = fieldData this.
Proof.
  unfold processPayload. destruct payload as [text | ]; [ | reflexivity].
  destruct (_ || _); [reflexivity | ]. now destruct (JSON_parse text).
Qed.

(** The guard of line 161 on a text that is present. *)
Lemma noData_guard (text : string) :
  String.eqb text "" || String.eqb (trim text) "" || String.eqb text "{}" = true <->
  allWhiteSpace text = true \/ text = "{}".
Proof.
  rewrite !orb_true_iff, !String.eqb_eq, trim_blank. split.
  - intros [[-> | H] | H]; auto.
  - intros [H | H]; auto.
Qed.

Lemma toggle_expandedNodes (nodeKey : string) (this : Component) :
  expandedNodes (handleToggleExpansion nodeKey this) =
  if bool_decide (nodeKey ∈ expandedNodes this)
  then expandedNodes this ∖ {[ nodeKey ]}
  else {[ nodeKey ]} ∪ expandedNodes this.
Proof.
  unfold handleToggleExpansion, rebuildTree, processCurrentSelection, updateAllExpandedState.
  rewrite processPayload_expandedNodes.
  destruct (bool_decide _); now destruct (size _ =? 0).
Qed.


(** C9. For every node key and every prior state, after the toggle handler
    completes [allExpanded] is [false]: both branches of
    [updateAllExpandedState] store [false], and the rebuild that follows does
    not touch the flag, so the flag is never recomputed from the tree. *)
Theorem toggle_resets_allExpanded (nodeKey : string) (this : Component) :
  allExpanded (handleToggleExpansion nodeKey this) = false.
Proof.
  unfold handleToggleExpansion, rebuildTree, processCurrentSelection.
  rewrite processPayload_allExpanded. unfold updateAllExpandedState.
  now destruct (size _ =? 0).
Qed.

(** C10. For every payload that is absent ([null] or [undefined]), consists
    entirely of white space, or is exactly the text of an empty object
    literal, [processPayload] only empties the tree: the parser is not
    consulted, the [error] field keeps its previous value (it is neither set
    nor cleared), and no other field changes. *)
Theorem blank_payload_clears_tree_only (payload : option string) (this : Component) :
  payload = None \/ (exists text, payload = Some text /\ (allWhiteSpace text = true \/ text = "{}")) ->
  processPayload payload this = set_jsonTree [] this /\
  jsonTree (processPayload payload this) = [] /\
  error (processPayload payload this) = error this.
Proof.
  intros H.
  assert (Heq : processPayload payload this = set_jsonTree [] this).
  { destruct H as [-> | (text & -> & H)]; [reflexivity | ].
    unfold processPayload. apply noData_guard in H. now rewrite H. }
  rewrite Heq. now repeat split.
Qed.


End ControllerFacts.

(** ** Expand all *)

Section ExpandAll.
Context {JsNumber : Type} `{!NumberOps JsNumber}.

#[local] Abbreviation Json := (JsonValue JsNumber).

Lemma fold_left_grows {A : Type} (f : gset string -> A -> gset string) (l : list A) (E : gset string) :
  (forall acc x, x ∈ l -> acc ⊆ f acc x) -> E ⊆ fold_left f l E.
Proof.
  revert E. induction l as [ | x l IH]; intros E Hf; simpl; [reflexivity | ].
  transitivity (f E x).
  - apply Hf. left.
  - apply IH. intros acc y Hy. apply Hf. now right.
Qed.

(** [addAllNodesToExpanded] only ever adds keys. *)
Lemma addAllNodesToExpanded_grows (obj : Json) parentKey level E :
  E ⊆ addAllNodesToExpanded obj parentKey level E.
Proof.
  revert parentKey level E. induction obj as [obj IH] using Json_entries_ind.
  intros parentKey level E. rewrite addAllNodesToExpanded_entries.
  apply fold_left_grows. intros acc kv [i Hi]%list_elem_of_lookup.
  unfold visitEntry. destruct (hasChildren (snd kv)); [ | reflexivity].
  etransitivity; [ | eapply IH; eauto]. set_solver.
Qed.

(** The key of an expandable entry is added, and so is everything the
    traversal adds below that entry. *)
Lemma addAllNodesToExpanded_entry (obj : Json) parentKey level E i kv :
  entries obj !! i = Some kv ->
  hasChildren (snd kv) = true ->
  generateKey (fullPathOf parentKey (fst kv)) level ∈ addAllNodesToExpanded obj parentKey level E /\
  exists E', addAllNodesToExpanded (snd kv) (fullPathOf parentKey (fst kv)) (level + 1) E'
             ⊆ addAllNodesToExpanded obj parentKey level E.
Proof.
  intros Hi Hc. rewrite (addAllNodesToExpanded_entries obj).
  rewrite <- (take_drop_middle _ _ _ Hi), fold_left_app. simpl.
  set (before := fold_left _ (take i (entries obj)) E).
  set (step := fun acc (kv0 : JsKey * Json) => visitEntry parentKey level (fst kv0) (snd kv0)
                 (addAllNodesToExpanded (snd kv0)) acc).
  assert (Hrest : forall acc, acc ⊆ fold_left step (drop (S i) (entries obj)) acc).
  { intros acc. apply fold_left_grows. intros acc' kv' _. unfold step, visitEntry.
    destruct (hasChildren (snd kv')); [ | reflexivity].
    etransitivity; [ | apply addAllNodesToExpanded_grows]. set_solver. }
  unfold visitEntry. rewrite Hc. split.
  - apply Hrest. apply addAllNodesToExpanded_grows. set_solver.
  - eexists. apply Hrest.
Qed.

(** With a set that contains what [addAllNodesToExpanded] collects, the
    materialization reaches every position of the document. *)
Lemma expanded_tree_is_complete (obj : Json) :
  forall parentKey level E0 E rows value,
    addAllNodesToExpanded obj parentKey level E0 ⊆ E ->
    rows <> [] ->
    valueAt obj rows = Some value ->
    exists n, nodeAt (buildJsonTree E obj parentKey level) rows = Some n /\
              node_hasChildren n = hasChildren value /\
              (hasChildren value = true ->
               node_isExpanded n = true /\
               node_key n ∈ addAllNodesToExpanded obj parentKey level E0).
Proof.
  induction obj as [obj IH] using Json_entries_ind.
  intros parentKey level E0 E rows value Hsub Hrows Hval.
  destruct rows as [ | i below]; [congruence | ]. simpl in Hval.
  destruct (entries obj !! i) as [kv | ] eqn:Hi; [ | discriminate].
  pose proof (buildJsonTree_lookup E obj parentKey level i kv Hi) as Hrow.
  destruct below as [ | j below].
  - injection Hval as <-. eexists. split; [exact Hrow | ]. split; [reflexivity | ].
    intros Hc. destruct (addAllNodesToExpanded_entry obj parentKey level E0 i kv Hi Hc) as [Hin _].
    split; [ | exact Hin]. simpl. apply bool_decide_eq_true. now apply Hsub.
  - assert (Hc : hasChildren (snd kv) = true).
    { simpl in Hval. destruct (entries (snd kv) !! j) eqn:Hj; [ | discriminate].
      eapply entries_hasChildren; eauto. }
    destruct (addAllNodesToExpanded_entry obj parentKey level E0 i kv Hi Hc) as [Hin [E' Hbelow]].
    destruct (IH i kv Hi (fullPathOf parentKey (fst kv)) (level + 1) E' E (j :: below) value)
      as (n & Hn & Hhc & Hexp); [set_solver | discriminate | exact Hval | ].
    exists n. split; [ | split; [exact Hhc | ]].
    + change (nodeAt (buildJsonTree E obj parentKey level) (i :: j :: below))
        with (match buildJsonTree E obj parentKey level !! i with
              | Some m => nodeAt (node_children m) (j :: below)
              | None => None
              end).
      rewrite Hrow. simpl node_children. rewrite Hc.
      rewrite bool_decide_eq_true_2 by now apply Hsub. exact Hn.
    + intros Hv. destruct (Hexp Hv) as [? ?]. split; [assumption | ]. now apply Hbelow.
Qed.

(** C5. expandAll totality: for every JSON value [obj] and every prior
    expansion set [E0], the set that [addAllNodesToExpanded(obj, '', 0)]
    leaves behind contains the key of every entry, at every depth, whose
    value is a container with at least one entry; and materializing [obj]
    with that set yields a row for every position of the document, each row
    of such a container being expandable and expanded. *)
Theorem expandAll_expands_every_container (obj : Json) (E0 : gset string)
    (rows : list nat) (value : Json) :
  rows <> [] ->
  valueAt obj rows = Some value ->
  exists n,
    nodeAt (buildJsonTree (addAllNodesToExpanded obj (KStr "") 0 E0) obj (KStr "") 0) rows = Some n /\
    node_hasChildren n = hasChildren value /\
    (hasChildren value = true ->
     node_isExpanded n = true /\
     node_key n ∈ addAllNodesToExpanded obj (KStr "") 0 E0).
Proof.
  intros Hrows Hval. now apply (expanded_tree_is_complete obj (KStr "") 0 E0).
Qed.

End ExpandAll.

(** ** Rows and positions *)

Section RowsAndPositions.
Context {JsNumber : Type} `{!NumberOps JsNumber}.

#[local] Abbreviation Json := (JsonValue JsNumber).

Lemma nodeAt_cons (tree : list DisplayNode) (i j : nat) (below : list nat) :
  nodeAt tree (i :: j :: below) =
  match tree !! i with
  | Some n => nodeAt (node_children n) (j :: below)
  | None => None
  end.
Proof. reflexivity. Qed.

Lemma nodeAt_nil (rows : list nat) : nodeAt [] rows = None.
Proof. destruct rows as [ | i [ | j below]]; reflexivity. Qed.

Lemma extendPath_cons parentKey key (ks : list JsKey) :
  extendPath parentKey (key :: ks) = extendPath (fullPathOf parentKey key) ks.
Proof. reflexivity. Qed.

Lemma extendPath_snoc parentKey (ks : list JsKey) key :
  extendPath parentKey (ks ++ [key]) = fullPathOf (extendPath parentKey ks) key.
Proof. unfold extendPath. now rewrite fold_left_app. Qed.

Lemma valueAt_snoc (obj : Json) (above : list nat) (i : nat) parent :
  valueAt obj above = Some parent ->
  valueAt obj (above ++ [i]) =
  match entries parent !! i with
  | Some kv => Some (snd kv)
  | None => None
  end.
Proof.
  revert obj. induction above as [ | a above IH]; intros obj; simpl.
  - now intros [= ->].
  - destruct (entries obj !! a) as [kv | ]; [apply IH | discriminate].
Qed.

Lemma keysAt_snoc (obj : Json) (above : list nat) (i : nat) parent ks kv :
  valueAt obj above = Some parent ->
  keysAt obj above = Some ks ->
  entries parent !! i = Some kv ->
  keysAt obj (above ++ [i]) = Some (ks ++ [fst kv]).
Proof.
  revert obj ks. induction above as [ | a above IH]; intros obj ks; simpl.
  - intros [= ->] [= <-] ->. reflexivity.
  - destruct (entries obj !! a) as [kva | ]; [ | discriminate].
    intros Hv. destruct (keysAt (snd kva) above) as [ks' | ] eqn:Hk; [ | discriminate].
    intros [= <-] Hi. now rewrite (IH _ _ Hv Hk Hi).
Qed.


(** Every row of a materialized container is the row of one entry of the
    document: the entry [i] of the container found at [above], built with the
    path and level accumulated on the way down. *)
Lemma nodeAt_buildJsonTree E (obj : Json) :
  forall parentKey level rows n,
    isContainer obj = true ->
    nodeAt (buildJsonTree E obj parentKey level) rows = Some n ->
    exists above i parent ks kv,
      rows = above ++ [i] /\
      valueAt obj above = Some parent /\
      keysAt obj above = Some ks /\
      entries parent !! i = Some kv /\
      n = entryNode E (Array_isArray parent) (arrayLength parent)
            (extendPath parentKey ks) (level + length above)
            (fst kv) (snd kv) (buildJsonTree E (snd kv)).
Proof.
  induction obj as [obj IH] using Json_entries_ind.
  intros parentKey level rows n Hc Hn.
  destruct rows as [ | i [ | j below]]; [discriminate | | ].
  - simpl in Hn. destruct (buildJsonTree_lookup_inv _ _ _ _ _ _ Hc Hn) as (kv & Hi & ->).
    exists [], i, obj, [], kv. simpl. rewrite Nat.add_0_r. now repeat split.
  - rewrite nodeAt_cons in Hn.
    destruct (buildJsonTree E obj parentKey level !! i) as [m | ] eqn:Hm; [ | discriminate].
    destruct (buildJsonTree_lookup_inv _ _ _ _ _ _ Hc Hm) as (kv & Hi & ->).
    simpl node_children in Hn.
    destruct (hasChildren (snd kv)) eqn:Hch; cbn [andb] in Hn;
      [ | now rewrite nodeAt_nil in Hn].
    destruct (bool_decide _); [ | now rewrite nodeAt_nil in Hn].
    destruct (IH i kv Hi _ _ _ _ (hasChildren_container _ Hch) Hn)
      as (above & i' & parent & ks & kv' & Hrows & Hv & Hk & Hi' & ->).
    exists (i :: above), i', parent, (fst kv :: ks), kv'.
    simpl. rewrite Hi, Hv, Hk, Hrows.
    replace (level + 1 + length above) with (level + S (length above)) by lia.
    now repeat split.
Qed.

(** The key of a materialized row, read off the document. *)
Lemma node_key_at E (obj : Json) parentKey level rows n :
  isContainer obj = true ->
  nodeAt (buildJsonTree E obj parentKey level) rows = Some n ->
  exists ks,
    keysAt obj rows = Some ks /\
    node_key n = generateKey (extendPath parentKey ks) (level + (length rows - 1)).
Proof.
  intros Hc Hn.
  destruct (nodeAt_buildJsonTree E obj _ _ _ _ Hc Hn)
    as (above & i & parent & ks & kv & -> & Hv & Hk & Hi & ->).
  exists (ks ++ [fst kv]). split; [eapply keysAt_snoc; eauto | ].
  simpl. rewrite extendPath_snoc, length_app. simpl.
  replace (length above + 1 - 1) with (length above) by lia. reflexivity.
Qed.


End RowsAndPositions.

(** ** Node keys *)

Section NodeKeys.
Context {JsNumber : Type}.

#[local] Abbreviation Json := (JsonValue JsNumber).

#[local] Abbreviation dotFree := (fun k : JsKey => countChar "." (toStr k) = 0).

(** The path and the level can be read back from a node key: the level is a
    decimal numeral, so the last underscore of the key is the separator. *)
Lemma generateKey_inj (a b : JsKey) (l l' : nat) :
  generateKey a l = generateKey b l' -> toStr a = toStr b /\ l = l'.
Proof.
  unfold generateKey. intros E.
  apply (split_at_last "_" (toStr a) (toStr b) (decimal l) (decimal l')) in E
    as [Hp Hl]; try (now apply countChar_decimal).
  split; [exact Hp | now apply decimal_inj].
Qed.


















End NodeKeys.

Section NodeKeyInjectivity.
Context {JsNumber : Type} `{!NumberOps JsNumber}.

#[local] Abbreviation Json := (JsonValue JsNumber).




End NodeKeyInjectivity.

(** ** Summaries of entries *)

Section Summaries.
Context {JsNumber : Type} `{!NumberOps JsNumber}.

#[local] Abbreviation Json := (JsonValue JsNumber).

(** C3 (amended). For every entry of a container being materialized whose
    value is an empty object or an empty array, whatever the expansion set,
    the emitted row is not expandable, has no children, and its summary is
    the JSON serialization of the value: an opening and a closing brace for
    the empty object, an opening and a closing bracket for the empty
    array. *)
Theorem empty_container_row (E : gset string) (obj : Json) (parentKey : JsKey) (level : nat)
    (i : nat) (kv : JsKey * Json) (n : DisplayNode) :
  entries obj !! i = Some kv ->
  buildJsonTree E obj parentKey level !! i = Some n ->
  (snd kv = JObject [] ->
     node_hasChildren n = false /\ node_children n = [] /\ node_value n = "{}") /\
  (snd kv = JArray [] ->
     node_hasChildren n = false /\ node_children n = [] /\ node_value n = "[]").
Proof.
  intros Hi Hn. rewrite (buildJsonTree_lookup _ _ _ _ _ _ Hi) in Hn. injection Hn as <-.
  split; intros ->; simpl; now repeat split.
Qed.

End Summaries.

(** ** Row order *)

Section RowOrder.
Context {JsNumber : Type} `{!NumberOps JsNumber} `{!JsonParser JsNumber}.

#[local] Abbreviation Json := (JsonValue JsNumber).

Lemma defineMember_fresh (created : list (string * Json)) (member : string * Json) :
  fst member ∉ map fst created -> defineMember created member = created ++ [member].
Proof.
  induction created as [ | kv created IH]; simpl; [reflexivity | ].
  intros Hnotin. destruct (String.eqb (fst kv) (fst member)) eqn:Heq.
  - apply String.eqb_eq in Heq. exfalso. apply Hnotin. rewrite Heq. left.
  - rewrite IH; [reflexivity | ]. intros Hin. apply Hnotin. now right.
Qed.

(** Members with pairwise distinct names are created in the order of the
    text. *)
Lemma fold_defineMember (members created : list (string * Json)) :
  NoDup (map fst (created ++ members)) ->
  fold_left defineMember members created = created ++ members.
Proof.
  revert created. induction members as [ | m members IH]; intros created Hnd; simpl.
  - now rewrite app_nil_r.
  - rewrite defineMember_fresh.
    + rewrite IH; rewrite <- app_assoc; [reflexivity | exact Hnd].
    + rewrite map_app in Hnd. apply NoDup_app in Hnd as (_ & Hdisj & _).
      intros Hin. apply (Hdisj _ Hin). left.
Qed.

(** Without array-index names the enumeration order is the creation order. *)
Lemma ownPropertyOrder_named (created : list (string * Json)) :
  Forall (fun kv => arrayIndex (fst kv) = None) created ->
  ownPropertyOrder created = created.
Proof.
  intros Hnamed. unfold ownPropertyOrder.
  assert (Hindex : indexProperties created = []).
  { induction Hnamed as [ | kv created Hkv _ IH]; [reflexivity | ]. simpl. now rewrite Hkv. }
  rewrite Hindex. simpl.
  induction Hnamed as [ | kv created Hkv Hrest IH]; [reflexivity | ].
  simpl. unfold isNamedProperty at 1. rewrite Hkv. f_equal. apply IH.
  simpl in Hindex. now rewrite Hkv in Hindex.
Qed.

Lemma insertByIndex_Forall (P : N * (string * Json) -> Prop) n kv
    (sorted : list (N * (string * Json))) :
  Forall P (insertByIndex n kv sorted) <-> P (n, kv) /\ Forall P sorted.
Proof.
  induction sorted as [ | [m kv'] sorted IH]; simpl.
  - rewrite Forall_singleton, Forall_nil. tauto.
  - destruct (n <? m)%N; rewrite !Forall_cons; [tauto | ]. rewrite IH. tauto.
Qed.

Lemma insertByIndex_sorted n kv (sorted : list (N * (string * Json))) :
  StronglySorted (fun a b => (fst a <= fst b)%N) sorted ->
  StronglySorted (fun a b => (fst a <= fst b)%N) (insertByIndex n kv sorted).
Proof.
  induction 1 as [ | [m kv'] sorted Hsorted IH Hall]; simpl.
  - repeat constructor.
  - destruct (N.ltb_spec n m) as [Hlt | Hge].
    + constructor; [now constructor | ]. constructor; [simpl; lia | ].
      eapply Forall_impl; [exact Hall | ]. simpl. intros; lia.
    + constructor; [exact IH | ]. apply insertByIndex_Forall. split; [simpl; lia | exact Hall].
Qed.

(** The array-index properties are enumerated in ascending numeric order,
    each under the index its name denotes. *)
Lemma indexProperties_sorted (created : list (string * Json)) :
  StronglySorted (fun a b => (fst a <= fst b)%N) (indexProperties created) /\
  Forall (fun ikv => arrayIndex (fst (snd ikv)) = Some (fst ikv)) (indexProperties created).
Proof.
  induction created as [ | kv created [IH1 IH2]]; simpl.
  - split; constructor.
  - destruct (arrayIndex (fst kv)) as [n | ] eqn:Hn; [ | now split].
    split; [now apply insertByIndex_sorted | ]. apply insertByIndex_Forall. now split.
Qed.

Lemma displayKeys_entries E (obj : Json) parentKey level :
  isContainer obj = true ->
  map node_displayKey (buildJsonTree E obj parentKey level) = map fst (entries obj).
Proof.
  intros Hc. rewrite buildJsonTree_entries by assumption.
  rewrite map_map. reflexivity.
Qed.

Lemma entries_array_keys (items : list Json) :
  map fst (entries (JArray items)) = map KNum (seq 0 (length items)).
Proof.
  simpl. apply list_eq. intros i.
  rewrite !list_lookup_fmap, list_lookup_imap.
  destruct (items !! i) as [item | ] eqn:Hi; simpl.
  - rewrite lookup_seq_lt by (eapply lookup_lt_Some; eauto). reflexivity.
  - rewrite lookup_seq_ge by (now apply lookup_ge_None). reflexivity.
Qed.

(** C6 (amended). Determinism of materialization: the tree that
    [processPayload] stores depends only on the payload and on the expansion
    set, so that processing the same payload twice in a row yields the same
    tree; the display keys and the node keys of the rows of a container do
    not depend on the expansion set at all; the rows of an array follow the
    ascending indices; the rows of an object follow the order in which
    [Object.entries] enumerates its properties, which is the order of the
    document whenever the member names are pairwise distinct and none of
    them is an array index; in general the members named by an array index
    come first, in ascending numeric order, followed by the other members in
    the order of the document. *)
Theorem materialization_deterministic_in_property_order :
  (forall (payload : option string) (this this' : Component),
     expandedNodes this = expandedNodes this' ->
     jsonTree (processPayload payload this) = jsonTree (processPayload payload this')) /\
  (forall (payload : option string) (this : Component),
     jsonTree (processPayload payload (processPayload payload this))
     = jsonTree (processPayload payload this)) /\
  (forall (E E' : gset string) (obj : Json) (parentKey : JsKey) (level : nat),
     map node_displayKey (buildJsonTree E obj parentKey level)
     = map node_displayKey (buildJsonTree E' obj parentKey level) /\
     map node_key (buildJsonTree E obj parentKey level)
     = map node_key (buildJsonTree E' obj parentKey level)) /\
  (forall (E : gset string) (items : list Json) (parentKey : JsKey) (level : nat),
     map node_displayKey (buildJsonTree E (JArray items) parentKey level)
     = map KNum (seq 0 (length items))) /\
  (forall (E : gset string) (props : list (string * Json)) (parentKey : JsKey) (level : nat),
     map node_displayKey (buildJsonTree E (JObject props) parentKey level)
     = map (fun kv => KStr (fst kv)) props) /\
  (forall (E : gset string) (members : list (string * Json)) (parentKey : JsKey) (level : nat),
     NoDup (map fst members) ->
     Forall (fun kv => arrayIndex (fst kv) = None) members ->
     map node_displayKey (buildJsonTree E (JSON_object members) parentKey level)
     = map (fun kv => KStr (fst kv)) members) /\
  (forall (E : gset string) (members : list (string * Json)) (parentKey : JsKey) (level : nat),
     NoDup (map fst members) ->
     map node_displayKey (buildJsonTree E (JSON_object members) parentKey level)
     = map (fun kv => KStr (fst kv))
         (map snd (indexProperties members) ++ List.filter isNamedProperty members) /\
     StronglySorted (fun a b => (fst a <= fst b)%N) (indexProperties members) /\
     Forall (fun ikv => arrayIndex (fst (snd ikv)) = Some (fst ikv)) (indexProperties members)).
Proof.
  assert (Hdet : forall payload this this',
             expandedNodes this = expandedNodes this' ->
             jsonTree (processPayload payload this) = jsonTree (processPayload payload this')).
  { intros payload this this' HE. unfold processPayload.
    destruct payload as [text | ]; [ | reflexivity].
    destruct (_ || _); [reflexivity | ].
    destruct (JSON_parse text); simpl; [now rewrite HE | reflexivity]. }
  assert (Hobj : forall E props parentKey level,
             map node_displayKey (buildJsonTree E (JObject props) parentKey level)
             = map (fun kv : string * Json => KStr (fst kv)) props).
  { intros. rewrite displayKeys_entries by reflexivity. simpl. now rewrite map_map. }
  repeat split.
  - exact Hdet.
  - intros payload this. apply Hdet. apply processPayload_expandedNodes.
  - destruct (isContainer obj) eqn:Hc.
    + now rewrite !displayKeys_entries.
    + now rewrite !buildJsonTree_leaf.
  - destruct (isContainer obj) eqn:Hc.
    + rewrite !buildJsonTree_entries by assumption. now rewrite !map_map.
    + now rewrite !buildJsonTree_leaf.
  - intros. rewrite displayKeys_entries by reflexivity. apply entries_array_keys.
  - exact Hobj.
  - intros E members parentKey level Hnd Hnamed. unfold JSON_object.
    rewrite Hobj, (fold_defineMember members []) by exact Hnd.
    now rewrite ownPropertyOrder_named.
  - unfold JSON_object. rewrite Hobj, (fold_defineMember members []) by assumption.
    reflexivity.
  - apply indexProperties_sorted.
  - apply indexProperties_sorted.
Qed.

End RowOrder.

(** ** Further properties of the controller and of the rows *)

Section FurtherProperties.
Context {JsNumber : Type} `{!NumberOps JsNumber} `{!JsonParser JsNumber}.

#[local] Abbreviation Json := (JsonValue JsNumber).

Lemma hasChildren_length (value : Json) :
  hasChildren value = (0 <? length (entries value)).
Proof.
  destruct value as [ | b | n | s | items | props]; simpl; try reflexivity.
  - now rewrite length_imap.
  - now rewrite !length_map.
Qed.

(** With an empty expansion set no row is expanded, at any depth. *)
Lemma buildJsonTree_collapsed (obj : Json) (parentKey : JsKey) (level : nat) :
  Forall (fun n => node_isExpanded n = false) (flatten (buildJsonTree ∅ obj parentKey level)).
Proof.
  revert parentKey level. induction obj as [obj IH] using Json_entries_ind.
  intros parentKey level. destruct (isContainer obj) eqn:Hc.
  - rewrite buildJsonTree_entries by assumption.
    unfold flatten. apply Forall_concat. rewrite !Forall_fmap.
    apply Forall_lookup_2. intros i kv Hkv. unfold compose.
    rewrite flattenNode_children. constructor; [reflexivity | ].
    simpl. rewrite andb_false_r. constructor.
  - rewrite buildJsonTree_leaf by assumption.
    unfold flatten. cbn [map concat]. rewrite app_nil_r, flattenNode_children.
    constructor; [reflexivity | constructor].
Qed.

(** X1. Collapse all: when the flag [allExpanded] is set, the expand/collapse
    handler clears the expansion set and the flag, and the tree it rebuilds
    has no expanded row at any depth. *)
Theorem collapseAll_leaves_no_expanded_row (this : Component) :
  allExpanded this = true ->
  expandedNodes (handleExpandCollapseAll this) = ∅ /\
  allExpanded (handleExpandCollapseAll this) = false /\
  Forall (fun n => node_isExpanded n = false) (flatten (jsonTree (handleExpandCollapseAll this))).
Proof.
  intros Hall. unfold handleExpandCollapseAll, processCurrentSelection. rewrite Hall.
  rewrite processPayload_expandedNodes, processPayload_allExpanded.
  split; [reflexivity | ]. split; [reflexivity | ].
  unfold processPayload. simpl fieldData.
  destruct (fieldData this) as [text | ]; [ | constructor].
  destruct (_ || _); [constructor | ].
  destruct (JSON_parse text); simpl; [apply buildJsonTree_collapsed | constructor].
Qed.

(** X2. Expand all through the controller: when the flag [allExpanded] is clear
    and the field text parses, the handler sets the flag, grows the expansion
    set by [addAllNodesToExpanded] from the root, and rebuilds the tree under
    the grown set. *)
Theorem expandAll_through_controller (this : Component) (text : string) (obj : Json) :
  allExpanded this = false ->
  fieldData this = Some text ->
  allWhiteSpace text = false -> text <> "{}" ->
  JSON_parse text = Parsed obj ->
  allExpanded (handleExpandCollapseAll this) = true /\
  expandedNodes (handleExpandCollapseAll this)
  = addAllNodesToExpanded obj (KStr "") 0 (expandedNodes this) /\
  jsonTree (handleExpandCollapseAll this)
  = buildJsonTree (addAllNodesToExpanded obj (KStr "") 0 (expandedNodes this)) obj (KStr "") 0.
Proof.
  intros Hall Hfd Hws Hne Hparse.
  assert (Hguard : String.eqb text "" || String.eqb (trim text) "" || String.eqb text "{}" = false).
  { destruct (_ || _) eqn:Hg; [ | reflexivity].
    apply noData_guard in Hg as [Hg | Hg]; congruence. }
  assert (Hexp : expandAllNodes this
                 = set_expandedNodes (addAllNodesToExpanded obj (KStr "") 0 (expandedNodes this)) this).
  { unfold expandAllNodes. rewrite Hfd. destruct text; [discriminate | ]. now rewrite Hparse. }
  unfold handleExpandCollapseAll, processCurrentSelection. rewrite Hall, Hexp.
  rewrite processPayload_expandedNodes, processPayload_allExpanded.
  split; [reflexivity | ]. split; [reflexivity | ].
  unfold processPayload. simpl fieldData. rewrite Hfd, Hguard, Hparse. reflexivity.
Qed.

(** X3. Emptiness rule: a row of a materialized container, at any depth, is
    expandable exactly when the value at its position has at least one
    entry, whatever the expansion set. *)
Theorem expandable_iff_has_entries (E : gset string) (obj : Json) (parentKey : JsKey)
    (level : nat) (rows : list nat) (n : DisplayNode) :
  isContainer obj = true ->
  nodeAt (buildJsonTree E obj parentKey level) rows = Some n ->
  exists value, valueAt obj rows = Some value /\
                node_hasChildren n = (0 <? length (entries value)).
Proof.
  intros Hc Hn.
  destruct (nodeAt_buildJsonTree E obj _ _ _ _ Hc Hn)
    as (above & i & parent & ks & kv & -> & Hv & Hk & Hi & ->).
  exists (snd kv). rewrite (valueAt_snoc _ _ _ _ Hv), Hi. split; [reflexivity | ].
  simpl. apply hasChildren_length.
Qed.

(** X4. The flag [isExpanded] of a row of a materialized container is the
    membership of its key in the expansion set, on expandable rows and on the
    others alike. *)
Theorem isExpanded_is_membership (E : gset string) (obj : Json) (parentKey : JsKey)
    (level : nat) (rows : list nat) (n : DisplayNode) :
  isContainer obj = true ->
  nodeAt (buildJsonTree E obj parentKey level) rows = Some n ->
  node_isExpanded n = bool_decide (node_key n ∈ E).
Proof.
  intros Hc Hn.
  destruct (nodeAt_buildJsonTree E obj _ _ _ _ Hc Hn)
    as (above & i & parent & ks & kv & -> & Hv & Hk & Hi & ->).
  reflexivity.
Qed.

End FurtherProperties.

(** ** The properties on the sample documents *)



(** C2 on three documents: the placeholder follows the kind and the length
    of the enclosing container, not of the child.  The array [a] of two items
    inside an object is summarized as an object of two properties; each
    one-property object inside an array of three is summarized as an array of
    three items; and the arrays of one and of three items inside an array of
    two are both summarized as arrays of two items. *)
Lemma placeholder_follows_enclosing_container :
  map node_value (buildJsonTree ∅ arrayInObjectDoc (KStr "") 0) = ["{2 properties}"] /\
  map node_value (buildJsonTree ∅ objectsInArrayDoc (KStr "") 0)
  = ["[3 items]"; "[3 items]"; "[3 items]"] /\
  map node_value (buildJsonTree ∅ arraysInArrayDoc (KStr "") 0)
  = ["[2 items]"; "[2 items]"].
Proof. repeat split; vm_compute; reflexivity. Qed.

(** C3, as stated, fails: the rows of an empty object and of an empty array
    show the serialized value, not a count placeholder. *)
Lemma empty_containers_show_serialization :
  map node_hasChildren (buildJsonTree ∅ emptiesDoc (KStr "") 0) = [false; false] /\
  map node_value (buildJsonTree ∅ emptiesDoc (KStr "") 0) = ["{}"; "[]"] /\
  "{}" <> "{0 properties}" /\ "[]" <> "[0 items]".
Proof. repeat split; try (vm_compute; reflexivity); discriminate. Qed.

(** C3 (amended) on the first entry of [emptiesDoc], the empty object. *)
Lemma empty_container_row_emptiesDoc :
  exists n : DisplayNode,
    buildJsonTree ∅ emptiesDoc (KStr "") 0 !! 0 = Some n /\
    node_hasChildren n = false /\ node_children n = [] /\ node_value n = "{}".
Proof.
  eexists. split; [reflexivity | ].
  exact (proj1 (empty_container_row ∅ emptiesDoc (KStr "") 0 0 (KStr "e", JObject []) _
                  eq_refl eq_refl) eq_refl).
Defined.

(** C5 on the scenario document: after expanding all from the empty set the
    row of [b] is there, expandable, expanded, and its key is in the set. *)
Lemma expandAll_expands_scenario :
  exists n : DisplayNode,
    nodeAt (buildJsonTree (addAllNodesToExpanded scenarioDoc (KStr "") 0 ∅)
              scenarioDoc (KStr "") 0) [1] = Some n /\
    node_hasChildren n = true /\
    node_isExpanded n = true /\
    node_key n ∈ addAllNodesToExpanded scenarioDoc (KStr "") 0 ∅.
Proof.
  destruct (expandAll_expands_every_container scenarioDoc ∅ [1] (JObject [("c", JNumber 2)]))
    as (n & Hn & Hhc & Hexp); [discriminate | reflexivity | ].
  exists n. split; [exact Hn | ]. split; [exact Hhc | ]. exact (Hexp eq_refl).
Defined.

(** C6, as stated, fails on the order of object entries: in the object
    parsed from the members [b], [1] the array-index name [1] is enumerated
    first, so the rows come out as [1], [b]. *)
Lemma index_names_enumerate_first :
  NoDup (map fst indexNamedMembers) /\
  map (fun kv => KStr (fst kv)) indexNamedMembers = [KStr "b"; KStr "1"] /\
  map node_displayKey (buildJsonTree ∅ (JSON_object indexNamedMembers) (KStr "") 0)
  = [KStr "1"; KStr "b"].
Proof.
  split; [refine (bool_decide_unpack _ _); vm_compute; exact I | ].
  split; vm_compute; reflexivity.
Qed.

(** C6 (amended) on the members of the scenario document: no name is an
    array index, so the rows follow the document. *)
Lemma scenario_rows_in_document_order :
  map node_displayKey
    (buildJsonTree ∅ (JSON_object [("a", JNumber 1); ("b", JObject [("c", JNumber 2)])])
       (KStr "") 0)
  = [KStr "a"; KStr "b"].
Proof.
  refine (proj1 (proj2 (proj2 (proj2 (proj2 (proj2
            (materialization_deterministic_in_property_order (JsNumber := nat)))))))
            ∅ [("a", JNumber 1); ("b", JObject [("c", JNumber 2)])] (KStr "") 0 _ _).
  - refine (bool_decide_unpack _ _). vm_compute. exact I.
  - repeat constructor.
Defined.



(** C10 on a payload of two spaces, with an error already set. *)
Lemma blank_payload_clears_tree_only_spaces :
  allWhiteSpace "  " = true /\
  processPayload (Some "  ") (set_error (Some "Failed to load") (newComponent "Payload__c"))
  = set_jsonTree [] (set_error (Some "Failed to load") (newComponent "Payload__c")) /\
  jsonTree (processPayload (Some "  ")
              (set_error (Some "Failed to load") (newComponent "Payload__c"))) = [] /\
  error (processPayload (Some "  ")
           (set_error (Some "Failed to load") (newComponent "Payload__c")))
  = Some "Failed to load".
Proof.
  split; [reflexivity | ].
  apply (blank_payload_clears_tree_only (JsNumber := nat)).
  right. exists "  ". split; [reflexivity | left; reflexivity].
Defined.

(** The scenarios of the specification, run through the record wire on a
    fresh component: the scenario document with nothing expanded; the same
    after toggling the row [b]; the document [null]; the text of an empty
    object; and a malformed text. *)
Example specification_scenarios :
  map (fun n => (node_displayKey n, node_value n, node_hasChildren n, node_children n))
    (jsonTree (wiredRecord (WireData (mkRecordData (Some scenarioText) false None))
                 (newComponent "Payload__c")))
  = [(KStr "a", "1", false, []); (KStr "b", "{1 properties}", true, [])] /\
  map (fun n => (node_displayKey n, node_isExpanded n,
                 map (fun c => (node_displayKey c, node_value c, node_hasChildren c))
                   (node_children n)))
    (jsonTree (handleToggleExpansion "b_0"
                 (wiredRecord (WireData (mkRecordData (Some scenarioText) false None))
                    (newComponent "Payload__c"))))
  = [(KStr "a", false, []); (KStr "b", true, [(KStr "c", "2", false)])] /\
  map (fun n => (node_value n, node_hasChildren n))
    (jsonTree (wiredRecord (WireData (mkRecordData (Some "null") false None))
                 (newComponent "Payload__c")))
  = [("null", false)] /\
  (let this := wiredRecord (WireData (mkRecordData (Some "{}") false None))
                 (newComponent "Payload__c") in
   jsonTree this = [] /\ hasPayload this = false /\ error this = None) /\
  (let this := wiredRecord (WireData (mkRecordData (Some "{invalid") false None))
                 (newComponent "Payload__c") in
   jsonTree this = [] /\
   error this = Some "Invalid JSON: Unexpected token i in JSON at position 1").
Proof. repeat split; vm_compute; reflexivity. Qed.

(** Collapse all on the scenario text with the row [b] expanded. *)
Lemma collapseAll_scenario :
  expandedNodes (handleExpandCollapseAll
                   (set_allExpanded true (set_expandedNodes {[ "b_0" ]}
                      (set_fieldData (Some scenarioText) (newComponent "Payload__c"))))) = ∅ /\
  allExpanded (handleExpandCollapseAll
                 (set_allExpanded true (set_expandedNodes {[ "b_0" ]}
                    (set_fieldData (Some scenarioText) (newComponent "Payload__c"))))) = false /\
  Forall (fun n => node_isExpanded n = false)
    (flatten (jsonTree (handleExpandCollapseAll
                (set_allExpanded true (set_expandedNodes {[ "b_0" ]}
                   (set_fieldData (Some scenarioText) (newComponent "Payload__c"))))))).
Proof.
  exact (collapseAll_leaves_no_expanded_row (JsNumber := nat)
           (set_allExpanded true (set_expandedNodes {[ "b_0" ]}
              (set_fieldData (Some scenarioText) (newComponent "Payload__c")))) eq_refl).
Defined.

(** Expand all through the controller on the scenario text. *)
Lemma expandAll_through_controller_scenario :
  allExpanded (handleExpandCollapseAll
                 (set_fieldData (Some scenarioText) (newComponent "Payload__c"))) = true /\
  expandedNodes (handleExpandCollapseAll
                   (set_fieldData (Some scenarioText) (newComponent "Payload__c")))
  = addAllNodesToExpanded scenarioDoc (KStr "") 0 ∅ /\
  jsonTree (handleExpandCollapseAll
              (set_fieldData (Some scenarioText) (newComponent "Payload__c")))
  = buildJsonTree (addAllNodesToExpanded scenarioDoc (KStr "") 0 ∅) scenarioDoc (KStr "") 0.
Proof.
  apply (expandAll_through_controller (JsNumber := nat)
           (set_fieldData (Some scenarioText) (newComponent "Payload__c"))
           scenarioText scenarioDoc); try reflexivity.
  discriminate.
Defined.

(** The emptiness rule on the empty array of [emptiesDoc]. *)
Lemma expandable_iff_has_entries_scenario :
  exists (n : DisplayNode) (value : JsonValue nat),
    nodeAt (buildJsonTree ∅ emptiesDoc (KStr "") 0) [1] = Some n /\
    valueAt emptiesDoc [1] = Some value /\
    node_hasChildren n = (0 <? length (entries value)).
Proof.
  eexists.
  destruct (expandable_iff_has_entries ∅ emptiesDoc (KStr "") 0 [1] _ eq_refl eq_refl)
    as (value & Hv & Hn).
  exists value. split; [reflexivity | ]. split; [exact Hv | exact Hn].
Defined.

(** The key of the scalar row [a] is in the set: the row is flagged
    expanded although it is not expandable. *)
Lemma isExpanded_is_membership_scenario :
  exists n : DisplayNode,
    nodeAt (buildJsonTree {[ "a_0" ]} scenarioDoc (KStr "") 0) [0] = Some n /\
    node_hasChildren n = false /\
    node_isExpanded n = bool_decide (node_key n ∈ ({[ "a_0" ]} : gset string)).
Proof.
  eexists. split; [reflexivity | ]. split; [reflexivity | ].
  exact (isExpanded_is_membership {[ "a_0" ]} scenarioDoc (KStr "") 0 [0] _ eq_refl eq_refl).
Defined.

(** * Further coverage: rows, keys and the expansion set *)

Section RowsUnderChangingSets.
Context {JsNumber : Type} `{!NumberOps JsNumber}.

#[local] Abbreviation Json := (JsonValue JsNumber).

(** Two entry rows agree when the sets agree on the key of the entry and the
    recursive calls agree on its value. *)
Lemma entryNode_ext E E' isArray objLength parentKey level key (value : Json)
    (recur recur' : JsKey -> nat -> list DisplayNode) :
  (generateKey (fullPathOf parentKey key) level ∈ E <->
   generateKey (fullPathOf parentKey key) level ∈ E') ->
  recur (fullPathOf parentKey key) (level + 1) = recur' (fullPathOf parentKey key) (level + 1) ->
  entryNode E isArray objLength parentKey level key value recur
  = entryNode E' isArray objLength parentKey level key value recur'.
Proof.
  intros Hkey Hrec. unfold entryNode.
  rewrite (bool_decide_ext _ _ Hkey), Hrec. reflexivity.
Qed.

(** A property of the root leaf and of every entry row holds for every row
    of a materialized tree. *)
Lemma rows_Forall (P : DisplayNode -> Prop) E :
  (forall (obj : Json) parentKey level, P (leafNode obj parentKey level)) ->
  (forall isArray objLength parentKey level key (value : Json),
     P (entryNode E isArray objLength parentKey level key value (buildJsonTree E value))) ->
  forall (obj : Json) parentKey level,
    Forall P (flatten (buildJsonTree E obj parentKey level)).
Proof.
  intros Hleaf Hentry obj. induction obj as [obj IH] using Json_entries_ind.
  intros parentKey level. destruct (isContainer obj) eqn:Hc.
  - rewrite buildJsonTree_entries by assumption.
    unfold flatten. apply Forall_concat. rewrite !Forall_fmap.
    apply Forall_lookup_2. intros i kv Hkv. unfold compose.
    rewrite flattenNode_children. constructor; [apply Hentry | ].
    simpl. destruct (hasChildren (snd kv) && _); [eapply IH; eauto | constructor].
  - rewrite buildJsonTree_leaf by assumption.
    unfold flatten. cbn [map concat]. rewrite app_nil_r, flattenNode_children.
    constructor; [apply Hleaf | constructor].
Qed.

(** A row survives a change of the expansion set that keeps every key of a
    smaller level: it is found at the same place, with the same key, and its
    flag follows the new set. *)
Lemma row_persists (obj : Json) :
  forall E E' parentKey level rows n,
    isContainer obj = true ->
    nodeAt (buildJsonTree E obj parentKey level) rows = Some n ->
    (forall p l, l < level + (length rows - 1) ->
                 generateKey p l ∈ E -> generateKey p l ∈ E') ->
    exists n',
      nodeAt (buildJsonTree E' obj parentKey level) rows = Some n' /\
      node_key n' = node_key n /\
      node_hasChildren n' = node_hasChildren n /\
      node_isExpanded n' = bool_decide (node_key n ∈ E') /\
      (node_children n' <> [] <-> node_hasChildren n' = true /\ node_isExpanded n' = true).
Proof.
  induction obj as [obj IH] using Json_entries_ind.
  intros E E' parentKey level rows n Hc Hn Hkeep.
  destruct rows as [ | i [ | j below]]; [discriminate | | ].
  - simpl in Hn. destruct (buildJsonTree_lookup_inv _ _ _ _ _ _ Hc Hn) as (kv & Hi & ->).
    eexists. split; [simpl; apply buildJsonTree_lookup; exact Hi | ].
    do 3 (split; [reflexivity | ]). exact (proj2 (entryNode_lazy _ _ _ _ _ _ _)).
  - rewrite nodeAt_cons in Hn.
    destruct (buildJsonTree E obj parentKey level !! i) as [m | ] eqn:Hm; [ | discriminate].
    destruct (buildJsonTree_lookup_inv _ _ _ _ _ _ Hc Hm) as (kv & Hi & ->).
    simpl node_children in Hn.
    destruct (hasChildren (snd kv)) eqn:Hch; cbn [andb] in Hn;
      [ | now rewrite nodeAt_nil in Hn].
    destruct (bool_decide _) eqn:Hin; [ | now rewrite nodeAt_nil in Hn].
    apply bool_decide_eq_true in Hin.
    destruct (IH i kv Hi E E' _ _ _ _ (hasChildren_container _ Hch) Hn) as (n' & Hn' & Hrest).
    { intros p l Hl. apply Hkeep. simpl in *. lia. }
    exists n'. split; [ | exact Hrest].
    rewrite nodeAt_cons, (buildJsonTree_lookup _ _ _ _ _ _ Hi). simpl node_children.
    rewrite Hch. rewrite bool_decide_eq_true_2; [exact Hn' | ].
    apply Hkeep; [simpl; lia | exact Hin].
Qed.

(** X5. Stale keys are inert.  The tree depends on the expansion set only
    through the keys of the positions of the document: two sets that agree
    on the key of every position give the same tree, whatever else they
    contain. *)
Theorem stale_keys_are_inert (E E' : gset string) (obj : Json) (parentKey : JsKey) (level : nat) :
  (forall rows ks, rows <> [] -> keysAt obj rows = Some ks ->
     generateKey (extendPath parentKey ks) (level + (length rows - 1)) ∈ E <->
     generateKey (extendPath parentKey ks) (level + (length rows - 1)) ∈ E') ->
  buildJsonTree E obj parentKey level = buildJsonTree E' obj parentKey level.
Proof.
  revert parentKey level. induction obj as [obj IH] using Json_entries_ind.
  intros parentKey level Hagree. destruct (isContainer obj) eqn:Hc.
  - rewrite !buildJsonTree_entries by assumption.
    apply list_eq. intros i. rewrite !list_lookup_fmap.
    destruct (entries obj !! i) as [kv | ] eqn:Hi; [ | reflexivity]. simpl. f_equal.
    apply entryNode_ext.
    + specialize (Hagree [i] [fst kv]). simpl in Hagree. rewrite Hi, Nat.add_0_r in Hagree.
      apply Hagree; [discriminate | reflexivity].
    + apply (IH i kv Hi). intros rows ks Hrows Hks.
      specialize (Hagree (i :: rows) (fst kv :: ks)). simpl in Hagree.
      rewrite Hi, Hks in Hagree.
      replace (level + 1 + (length rows - 1)) with (level + (length rows - 0)).
      * apply Hagree; [discriminate | reflexivity].
      * destruct rows; [congruence | simpl; lia].
  - now rewrite !buildJsonTree_leaf.
Qed.

(** X6. Every row describes its position.  A row of a materialized container
    found by the row path [rows] stands for the value at that position of
    the document: its level is the depth of the position, its display key is
    the last key of the path, its key is [generateKey] of the printed path
    and its level, and its type and array flag are those of the value. *)
Theorem row_describes_its_position (E : gset string) (obj : Json) (parentKey : JsKey)
    (level : nat) (rows : list nat) (n : DisplayNode) :
  isContainer obj = true ->
  nodeAt (buildJsonTree E obj parentKey level) rows = Some n ->
  exists ks value,
    keysAt obj rows = Some ks /\ valueAt obj rows = Some value /\
    node_level n = level + (length rows - 1) /\
    last ks = Some (node_displayKey n) /\
    node_key n = generateKey (extendPath parentKey ks) (node_level n) /\
    node_type n = getValueType value /\
    node_isArray n = Some (Array_isArray value).
Proof.
  intros Hc Hn.
  destruct (nodeAt_buildJsonTree E obj _ _ _ _ Hc Hn)
    as (above & i & parent & ks & kv & -> & Hv & Hk & Hi & ->).
  exists (ks ++ [fst kv]), (snd kv).
  rewrite (keysAt_snoc _ _ _ _ _ _ Hv Hk Hi), (valueAt_snoc _ _ _ _ Hv), Hi.
  rewrite length_app, last_snoc, extendPath_snoc. simpl.
  replace (length above + 1 - 1) with (length above) by lia.
  now repeat split.
Qed.

(** X11. The class of a value is never the default one.  Every row of a
    materialized tree carries one of the six types the row component knows,
    so [valueClasses] is the base class followed by the class of that
    type. *)
Theorem rows_never_get_the_default_class (E : gset string) (obj : Json)
    (parentKey : JsKey) (level : nat) :
  Forall (fun n => valueClasses n = "json-value " +:+ node_type n +:+ "-value")
    (flatten (buildJsonTree E obj parentKey level)).
Proof.
  apply rows_Forall.
  - intros [ | b | k | s | items | props] pk lvl; reflexivity.
  - intros isArray len pk lvl key [ | b | k | s | items | props]; reflexivity.
Qed.

(** X12. A row shows children exactly when it has some.  On every row of a
    materialized tree [showChildren] is true if and only if [children] is
    not empty, and then the row is expandable and expanded. *)
Theorem showChildren_iff_children (E : gset string) (obj : Json)
    (parentKey : JsKey) (level : nat) :
  Forall (fun n => (showChildren n = true <-> node_children n <> []) /\
                   (showChildren n = node_hasChildren n && node_isExpanded n))
    (flatten (buildJsonTree E obj parentKey level)).
Proof.
  apply rows_Forall.
  - intros o pk lvl. split; [ | reflexivity].
    simpl. split; [discriminate | intros H; now destruct H].
  - intros isArray len pk lvl key value.
    pose proof (buildJsonTree_nonempty E value (fullPathOf pk key) (lvl + 1)) as Hne.
    unfold showChildren, entryNode; simpl.
    destruct (hasChildren value), (bool_decide _); simpl;
      try (split; [split; [discriminate | intros H; now destruct H] | reflexivity]).
    specialize (Hne eq_refl).
    destruct (buildJsonTree E value (fullPathOf pk key) (lvl + 1)); [congruence | ].
    split; [split; [discriminate | reflexivity] | reflexivity].
Qed.

End RowsUnderChangingSets.

Section ExpandAllExactly.
Context {JsNumber : Type} `{!NumberOps JsNumber}.

#[local] Abbreviation Json := (JsonValue JsNumber).

Lemma fold_left_union {A : Type} (f : gset string -> A -> gset string)
    (g : A -> gset string) (l : list A) (E : gset string) :
  (forall acc x, x ∈ l -> f acc x = acc ∪ g x) ->
  fold_left f l E = E ∪ ⋃ (map g l).
Proof.
  revert E. induction l as [ | x l IH]; intros E Hf; simpl.
  - set_solver.
  - rewrite IH by (intros acc y Hy; apply Hf; now right).
    rewrite Hf by left. set_solver.
Qed.

(** What one entry contributes to the set. *)
Lemma addAllNodesToExpanded_union (obj : Json) :
  forall parentKey level E,
    addAllNodesToExpanded obj parentKey level E
    = E ∪ addAllNodesToExpanded obj parentKey level ∅.
Proof.
  induction obj as [obj IH] using Json_entries_ind. intros parentKey level E.
  set (g := fun kv : JsKey * Json =>
              if hasChildren (snd kv)
              then {[ generateKey (fullPathOf parentKey (fst kv)) level ]}
                   ∪ addAllNodesToExpanded (snd kv) (fullPathOf parentKey (fst kv)) (level + 1) ∅
              else (∅ : gset string)).
  assert (Hstep : forall E0,
             addAllNodesToExpanded obj parentKey level E0 = E0 ∪ ⋃ (map g (entries obj))).
  { intros E0. rewrite addAllNodesToExpanded_entries.
    apply fold_left_union. intros acc kv [i Hi]%list_elem_of_lookup.
    unfold visitEntry, g. destruct (hasChildren (snd kv)); [ | set_solver].
    rewrite (IH i kv Hi). set_solver. }
  rewrite (Hstep E), (Hstep ∅). set_solver.
Qed.

Lemma addAllNodesToExpanded_keys (obj : Json) :
  forall parentKey level k,
    k ∈ addAllNodesToExpanded obj parentKey level ∅ <->
    exists rows ks value,
      rows <> [] /\ keysAt obj rows = Some ks /\ valueAt obj rows = Some value /\
      hasChildren value = true /\
      k = generateKey (extendPath parentKey ks) (level + (length rows - 1)).
Proof.
  induction obj as [obj IH] using Json_entries_ind. intros parentKey level k.
  rewrite addAllNodesToExpanded_entries.
  set (g := fun kv : JsKey * Json =>
              if hasChildren (snd kv)
              then {[ generateKey (fullPathOf parentKey (fst kv)) level ]}
                   ∪ addAllNodesToExpanded (snd kv) (fullPathOf parentKey (fst kv)) (level + 1) ∅
              else (∅ : gset string)).
  rewrite (fold_left_union _ g).
  2:{ intros acc kv _. unfold visitEntry, g. destruct (hasChildren (snd kv)); [ | set_solver].
      rewrite addAllNodesToExpanded_union. set_solver. }
  rewrite elem_of_union, elem_of_union_list. split.
  - intros [Hk | (X & HX & Hk)]; [set_solver | ].
    apply list_elem_of_fmap in HX as (kv & -> & [i Hi]%list_elem_of_lookup).
    unfold g in Hk. destruct (hasChildren (snd kv)) eqn:Hch; [ | set_solver].
    apply elem_of_union in Hk as [Hk | Hk].
    + apply elem_of_singleton in Hk as ->.
      exists [i], [fst kv], (snd kv). simpl. rewrite Hi, Nat.add_0_r.
      repeat split; (discriminate || assumption || reflexivity).
    + apply (IH i kv Hi) in Hk as (rows & ks & value & Hrows & Hks & Hv & Hhc & ->).
      exists (i :: rows), (fst kv :: ks), value. simpl. rewrite Hi, Hks.
      repeat split; try (discriminate || assumption).
      f_equal. destruct rows; [congruence | simpl; lia].
  - intros (rows & ks & value & Hrows & Hks & Hv & Hhc & ->). right.
    destruct rows as [ | i rows]; [congruence | ]. simpl in Hks, Hv.
    destruct (entries obj !! i) as [kv | ] eqn:Hi; [ | discriminate].
    exists (g kv). split; [apply list_elem_of_fmap; exists kv; split;
                           [reflexivity | eapply list_elem_of_lookup_2; eauto] | ].
    destruct (keysAt (snd kv) rows) as [ks' | ] eqn:Hks'; [ | discriminate].
    injection Hks as <-. unfold g.
    destruct rows as [ | j rows].
    + injection Hv as <-. injection Hks' as <-. rewrite Hhc. simpl.
      rewrite Nat.add_0_r. set_solver.
    + assert (Hch : hasChildren (snd kv) = true).
      { simpl in Hv. destruct (entries (snd kv) !! j) eqn:Hj; [ | discriminate].
        eapply entries_hasChildren; eauto. }
      rewrite Hch. apply elem_of_union. right. apply (IH i kv Hi).
      exists (j :: rows), ks', value. repeat split; try (discriminate || assumption).
      rewrite extendPath_cons. f_equal. simpl. lia.
Qed.

(** X9. Expand-all adds exactly the keys of the expandable positions.  A key
    is in the set after [addAllNodesToExpanded] if and only if it was there
    before or it is the key of a position of the document, below the root,
    whose value is a container with at least one entry. *)
Theorem expandAll_adds_exactly_the_expandable_keys (obj : Json) (parentKey : JsKey)
    (level : nat) (E : gset string) (k : string) :
  k ∈ addAllNodesToExpanded obj parentKey level E <->
  k ∈ E \/
  exists rows ks value,
    rows <> [] /\ keysAt obj rows = Some ks /\ valueAt obj rows = Some value /\
    hasChildren value = true /\
    k = generateKey (extendPath parentKey ks) (level + (length rows - 1)).
Proof.
  rewrite addAllNodesToExpanded_union, elem_of_union.
  now rewrite addAllNodesToExpanded_keys.
Qed.

(** X10. Expand-all is a union with a set of the document.  The set after
    [addAllNodesToExpanded] is the set before together with what the
    traversal adds to the empty set; so running it twice adds nothing more,
    and a larger set before gives a larger set after. *)
Theorem expandAll_is_a_union (obj : Json) (parentKey : JsKey) (level : nat) :
  (forall E, addAllNodesToExpanded obj parentKey level E
             = E ∪ addAllNodesToExpanded obj parentKey level ∅) /\
  (forall E, addAllNodesToExpanded obj parentKey level
               (addAllNodesToExpanded obj parentKey level E)
             = addAllNodesToExpanded obj parentKey level E) /\
  (forall E E', E ⊆ E' ->
                addAllNodesToExpanded obj parentKey level E
                ⊆ addAllNodesToExpanded obj parentKey level E').
Proof.
  split; [apply addAllNodesToExpanded_union | ]. split.
  - intros E. rewrite (addAllNodesToExpanded_union obj _ _ (addAllNodesToExpanded _ _ _ _)).
    rewrite (addAllNodesToExpanded_union obj _ _ E). set_solver.
  - intros E E' Hsub. rewrite (addAllNodesToExpanded_union obj _ _ E).
    rewrite (addAllNodesToExpanded_union obj _ _ E'). set_solver.
Qed.

End ExpandAllExactly.

(** * Further coverage: the controller, the wires and the views *)

Section ControllerCoverage.
Context {JsNumber : Type} `{!NumberOps JsNumber} `{!JsonParser JsNumber}.

#[local] Abbreviation Json := (JsonValue JsNumber).

Lemma guard_false (text : string) :
  allWhiteSpace text = false -> text <> "{}" ->
  String.eqb text "" || String.eqb (trim text) "" || String.eqb text "{}" = false.
Proof.
  intros Hws Hne. destruct (_ || _) eqn:Hg; [ | reflexivity].
  apply noData_guard in Hg as [Hg | Hg]; congruence.
Qed.

(** The tree that a rebuild stores when the field text parses. *)
Lemma rebuilt_tree (this : Component) (text : string) (obj : Json) :
  fieldData this = Some text ->
  allWhiteSpace text = false -> text <> "{}" ->
  JSON_parse text = Parsed obj ->
  jsonTree (processCurrentSelection this)
  = buildJsonTree (expandedNodes this) obj (KStr "") 0.
Proof.
  intros Hfd Hws Hne Hparse. unfold processCurrentSelection, processPayload.
  now rewrite Hfd, (guard_false _ Hws Hne), Hparse.
Qed.

Lemma toggled_tree (k : string) (this : Component) (text : string) (obj : Json) :
  fieldData this = Some text ->
  allWhiteSpace text = false -> text <> "{}" ->
  JSON_parse text = Parsed obj ->
  jsonTree (handleToggleExpansion k this)
  = buildJsonTree (expandedNodes (handleToggleExpansion k this)) obj (KStr "") 0.
Proof.
  intros Hfd Hws Hne Hparse.
  unfold handleToggleExpansion, rebuildTree.
  set (toggled := updateAllExpandedState _).
  assert (Hfd' : fieldData toggled = Some text).
  { unfold toggled, updateAllExpandedState.
    destruct (bool_decide _), (size _ =? 0); exact Hfd. }
  rewrite (rebuilt_tree toggled text obj) by assumption.
  unfold processCurrentSelection. now rewrite processPayload_expandedNodes.
Qed.

Lemma toggled_row_is_entry E (obj : Json) rows n k :
  nodeAt (buildJsonTree E obj (KStr "") 0) rows = Some n ->
  JsonTreeNode_handleToggle n = Some k ->
  isContainer obj = true /\ k = node_key n /\ node_hasChildren n = true /\
  node_isExpanded n = bool_decide (k ∈ E) /\
  exists p, k = generateKey p (length rows - 1).
Proof.
  intros Hn Hk. unfold JsonTreeNode_handleToggle in Hk.
  destruct (node_hasChildren n) eqn:Hhc; [ | discriminate]. injection Hk as <-.
  destruct (isContainer obj) eqn:Hc.
  - split; [reflexivity | ]. split; [reflexivity | ]. split; [reflexivity | ].
    destruct (node_key_at _ _ _ _ _ _ Hc Hn) as (ks & _ & Hkey).
    destruct (nodeAt_buildJsonTree E obj _ _ _ _ Hc Hn)
      as (above & i & parent & ks' & kv & -> & _ & _ & _ & ->).
    split; [reflexivity | ]. eexists. exact Hkey.
  - rewrite buildJsonTree_leaf in Hn by assumption.
    destruct rows as [ | [ | i] [ | j below]]; try discriminate.
    + simpl in Hn. injection Hn as <-. discriminate.
    + rewrite nodeAt_cons in Hn. simpl in Hn. destruct below; discriminate.
Qed.

(** X7. Toggling a collapsed row expands it.  When the field text parses and
    the tree is up to date, the toggle event that the row component raises
    for an expandable row that is not expanded leaves, after the rebuild, a
    row at the same place with the same key that is expanded and has
    children. *)
Theorem toggle_expands_a_collapsed_row (this : Component) (text : string) (obj : Json)
    (rows : list nat) (n : DisplayNode) (k : string) :
  fieldData this = Some text ->
  allWhiteSpace text = false -> text <> "{}" ->
  JSON_parse text = Parsed obj ->
  jsonTree this = buildJsonTree (expandedNodes this) obj (KStr "") 0 ->
  nodeAt (jsonTree this) rows = Some n ->
  JsonTreeNode_handleToggle n = Some k ->
  node_isExpanded n = false ->
  exists n',
    nodeAt (jsonTree (handleToggleExpansion k this)) rows = Some n' /\
    node_key n' = k /\ node_isExpanded n' = true /\ node_children n' <> [].
Proof.
  intros Hfd Hws Hne Hparse Htree Hn Hk Hcollapsed. rewrite Htree in Hn.
  destruct (toggled_row_is_entry _ _ _ _ _ Hn Hk) as (Hc & -> & Hhc & Hexp & _).
  rewrite Hcollapsed in Hexp. symmetry in Hexp. apply bool_decide_eq_false in Hexp.
  rewrite (toggled_tree _ _ _ _ Hfd Hws Hne Hparse), toggle_expandedNodes.
  rewrite (bool_decide_eq_false_2 _ Hexp).
  destruct (row_persists obj (expandedNodes this) ({[ node_key n ]} ∪ expandedNodes this)
              (KStr "") 0 rows n Hc Hn) as (n' & Hn' & Hkey & Hhc' & Hexp' & Hch).
  { intros p l _ Hin. set_solver. }
  exists n'. split; [exact Hn' | ]. split; [exact Hkey | ].
  assert (Hon : node_isExpanded n' = true).
  { rewrite Hexp'. apply bool_decide_eq_true. set_solver. }
  split; [exact Hon | ]. apply Hch. split; congruence.
Qed.

(** X8. Toggling an expanded row collapses it.  Under the same conditions,
    the toggle event raised for a row that is expanded leaves a row at the
    same place with the same key that is not expanded and has no
    children. *)
Theorem toggle_collapses_an_expanded_row (this : Component) (text : string) (obj : Json)
    (rows : list nat) (n : DisplayNode) (k : string) :
  fieldData this = Some text ->
  allWhiteSpace text = false -> text <> "{}" ->
  JSON_parse text = Parsed obj ->
  jsonTree this = buildJsonTree (expandedNodes this) obj (KStr "") 0 ->
  nodeAt (jsonTree this) rows = Some n ->
  JsonTreeNode_handleToggle n = Some k ->
  node_isExpanded n = true ->
  exists n',
    nodeAt (jsonTree (handleToggleExpansion k this)) rows = Some n' /\
    node_key n' = k /\ node_isExpanded n' = false /\ node_children n' = [].
Proof.
  intros Hfd Hws Hne Hparse Htree Hn Hk Hexpanded. rewrite Htree in Hn.
  destruct (toggled_row_is_entry _ _ _ _ _ Hn Hk) as (Hc & -> & Hhc & Hexp & (p & Hlevel)).
  rewrite Hexpanded in Hexp. symmetry in Hexp. apply bool_decide_eq_true in Hexp.
  rewrite (toggled_tree _ _ _ _ Hfd Hws Hne Hparse), toggle_expandedNodes.
  rewrite (bool_decide_eq_true_2 _ Hexp).
  destruct (row_persists obj (expandedNodes this) (expandedNodes this ∖ {[ node_key n ]})
              (KStr "") 0 rows n Hc Hn) as (n' & Hn' & Hkey & Hhc' & Hexp' & Hch).
  { intros q l Hl Hin. apply elem_of_difference. split; [exact Hin | ].
    intros Heq%elem_of_singleton. rewrite Hlevel in Heq.
    apply generateKey_inj in Heq as [_ Heq]. simpl in Hl. lia. }
  exists n'. split; [exact Hn' | ]. split; [exact Hkey | ].
  assert (Hoff : node_isExpanded n' = false).
  { rewrite Hexp'. apply bool_decide_eq_false. set_solver. }
  split; [exact Hoff | ].
  destruct (node_children n') eqn:Hchildren; [reflexivity | ].
  destruct (proj1 Hch) as [_ Hon]; [discriminate | congruence].
Qed.

(** X13. The wires and the rebuilds leave the expansion state alone.  Neither
    [processPayload] nor the record wire nor the object-info wire changes
    [expandedNodes], [allExpanded] or [fieldApiName]: only the toggle and the
    expand/collapse handlers do. *)
Theorem wires_preserve_expansion_state :
  (forall (payload : option string) (this : Component),
     expandedNodes (processPayload payload this) = expandedNodes this /\
     allExpanded (processPayload payload this) = allExpanded this /\
     fieldApiName (processPayload payload this) = fieldApiName this /\
     fieldData (processPayload payload this) = fieldData this) /\
  (forall (result : WireResult) (this : Component),
     expandedNodes (wiredRecord result this) = expandedNodes this /\
     allExpanded (wiredRecord result this) = allExpanded this /\
     fieldApiName (wiredRecord result this) = fieldApiName this) /\
  (forall (result : ObjectInfoResult) (this : Component) (view : Presentation),
     expandedNodes (fst (wiredObjectInfo result this view)) = expandedNodes this /\
     allExpanded (fst (wiredObjectInfo result this view)) = allExpanded this /\
     fieldData (fst (wiredObjectInfo result this view)) = fieldData this /\
     fieldDefinition (snd (wiredObjectInfo result this view)) = fieldDefinition view /\
     showRawFormat (snd (wiredObjectInfo result this view)) = showRawFormat view).
Proof.
  assert (Hname : forall payload this,
             fieldApiName (processPayload payload this) = fieldApiName this).
  { intros payload this. unfold processPayload. destruct payload as [text | ]; [ | reflexivity].
    destruct (_ || _); [reflexivity | ]. now destruct (JSON_parse text). }
  split; [ | split].
  - intros payload this.
    rewrite processPayload_expandedNodes, processPayload_allExpanded, processPayload_fieldData.
    now rewrite Hname.
  - intros [ | data | message] this; simpl; try (now repeat split).
    unfold processCurrentSelection.
    rewrite processPayload_expandedNodes, processPayload_allExpanded, Hname.
    destruct (orNull (rd_fieldValue data)); simpl; [now repeat split | ].
    destruct (rd_recordTypeAvailable data); now repeat split.
  - intros [ | fields | ] this view; simpl; try (now repeat split).
    unfold processCurrentSelection.
    rewrite processPayload_expandedNodes, processPayload_allExpanded, processPayload_fieldData.
    now repeat split.
Qed.

(** X14. The expand/collapse handler always flips the flag.  [allExpanded]
    and the button label change on every call; when the flag was clear and
    there is no field text, or the text is malformed, nothing is added to the
    expansion set although the flag is now set. *)
Theorem expand_collapse_always_flips (this : Component) :
  allExpanded (handleExpandCollapseAll this) = negb (allExpanded this) /\
  expandCollapseButtonLabel (handleExpandCollapseAll this)
  = (if allExpanded this then "Expand All" else "Collapse All") /\
  (allExpanded this = false ->
   (fieldData this = None \/ fieldData this = Some "" \/
    exists text message, fieldData this = Some text /\ JSON_parse text = SyntaxError message) ->
   expandedNodes (handleExpandCollapseAll this) = expandedNodes this).
Proof.
  unfold expandCollapseButtonLabel, handleExpandCollapseAll, processCurrentSelection.
  rewrite processPayload_allExpanded, processPayload_expandedNodes.
  destruct (allExpanded this) eqn:Hall; simpl.
  - repeat split. discriminate.
  - assert (Hflag : allExpanded (expandAllNodes this) = false).
    { unfold expandAllNodes. destruct (fieldData this) as [[ | c text] | ]; try exact Hall.
      destruct (JSON_parse _); exact Hall. }
    repeat split.
    intros _ [Hfd | [Hfd | (text & message & Hfd & Hparse)]]; unfold expandAllNodes;
      rewrite Hfd; try reflexivity.
    destruct text; [reflexivity | ]. now rewrite Hparse.
Qed.

End ControllerCoverage.

Section ViewsCoverage.
Context {JsNumber : Type} `{!NumberOps JsNumber} `{!JsonParser JsNumber}.

#[local] Abbreviation Json := (JsonValue JsNumber).

(** When record data arrives, the error is cleared and the extracted text is
    processed. *)
Lemma wiredRecord_data (data : RecordData) (this : Component) :
  exists extracted,
    wiredRecord (WireData data) this = processCurrentSelection extracted /\
    error extracted = None.
Proof.
  unfold wiredRecord. eexists. split; [reflexivity | ].
  destruct (orNull (rd_fieldValue data)); simpl; [reflexivity | ].
  now destruct (rd_recordTypeAvailable data).
Qed.

Lemma buildJsonTree_length E (obj : Json) parentKey level :
  (0 <? length (buildJsonTree E obj parentKey level))
  = negb (isContainer obj) || hasChildren obj.
Proof.
  destruct (isContainer obj) eqn:Hc.
  - rewrite buildJsonTree_entries, length_map by assumption. simpl.
    now rewrite hasChildren_length.
  - rewrite buildJsonTree_leaf by assumption. reflexivity.
Qed.

(** X15. When there is a payload to show.  After the record wire has delivered
    data, [hasPayload] is true exactly when the extracted field text is not
    made of white space only, is not the text of an empty object, parses,
    and its value is a scalar or a container with at least one entry; in
    particular an empty array or a padded empty object shows no payload. *)
Theorem hasPayload_after_data (data : RecordData) (this : Component) :
  hasPayload (wiredRecord (WireData data) this) = true <->
  exists text value,
    fieldData (wiredRecord (WireData data) this) = Some text /\
    allWhiteSpace text = false /\ text <> "{}" /\
    JSON_parse text = Parsed value /\
    (isContainer value = false \/ hasChildren value = true).
Proof.
  destruct (wiredRecord_data data this) as (ext & -> & Herr).
  unfold processCurrentSelection. rewrite processPayload_fieldData.
  unfold hasPayload, processPayload.
  destruct (fieldData ext) as [text | ] eqn:Hfd; simpl.
  2:{ split; [discriminate | intros (? & ? & ? & _); discriminate]. }
  destruct (_ || _) eqn:Hguard; simpl.
  { split; [discriminate | ]. intros (t & v & [= <-] & Hws & Hne & _).
    now rewrite (guard_false _ Hws Hne) in Hguard. }
  destruct (JSON_parse text) as [value | message] eqn:Hparse; simpl.
  2:{ split; [discriminate | ]. intros (t & v & [= <-] & _ & _ & Hp & _). congruence. }
  rewrite Herr, andb_true_r, buildJsonTree_length.
  assert (Hnb : allWhiteSpace text = false /\ text <> "{}").
  { split.
    - destruct (allWhiteSpace text) eqn:Hws; [ | reflexivity].
      rewrite (proj2 (noData_guard text)) in Hguard by now left. discriminate.
    - intros ->. discriminate. }
  destruct Hnb as [Hws Hne]. split.
  - intros H. exists text, value. repeat split; try assumption.
    apply orb_true_iff in H as [H | H]; [left | now right].
    now destruct (isContainer value).
  - intros (t & v & [= <-] & _ & _ & Hp & Hcase).
    rewrite Hparse in Hp. injection Hp as <-.
    apply orb_true_iff. destruct Hcase as [H | H]; [left; now rewrite H | now right].
Qed.

(** X16. A fetch error empties the component.  After the record wire reports
    an error the tree is empty, there is no field text, the error names the
    field and carries the message, nothing is shown or copied, and toggling
    or expanding keeps the tree empty and the error in place. *)
Theorem fetch_error_empties_the_component (message : string) (this : Component) :
  jsonTree (wiredRecord (WireError message) this) = [] /\
  fieldData (wiredRecord (WireError message) this) = None /\
  error (wiredRecord (WireError message) this)
  = Some ("Failed to load field '" +:+ fieldApiName this +:+ "': " +:+ message) /\
  hasPayload (wiredRecord (WireError message) this) = false /\
  formattedRawJson (wiredRecord (WireError message) this) = "" /\
  (forall host : ClipboardHost,
     handleCopyToClipboard host (wiredRecord (WireError message) this)
     = [RaiseToast noDataToast]) /\
  (forall k : string,
     jsonTree (handleToggleExpansion k (wiredRecord (WireError message) this)) = [] /\
     error (handleToggleExpansion k (wiredRecord (WireError message) this))
     = error (wiredRecord (WireError message) this)) /\
  jsonTree (handleExpandCollapseAll (wiredRecord (WireError message) this)) = [] /\
  error (handleExpandCollapseAll (wiredRecord (WireError message) this))
  = error (wiredRecord (WireError message) this).
Proof.
  repeat split.
  - unfold handleToggleExpansion, rebuildTree, updateAllExpandedState. simpl.
    destruct (bool_decide _), (size _ =? 0); reflexivity.
  - unfold handleToggleExpansion, rebuildTree, updateAllExpandedState. simpl.
    destruct (bool_decide _), (size _ =? 0); reflexivity.
  - unfold handleExpandCollapseAll. simpl. now destruct (allExpanded this).
  - unfold handleExpandCollapseAll. simpl. now destruct (allExpanded this).
Qed.

Lemma formattedRawJson_text (this : Component) (text : string) :
  fieldData this = Some text -> text <> "" ->
  formattedRawJson this
  = match JSON_parse text with
    | Parsed parsedJson => JSON_stringify_indented "" parsedJson
    | SyntaxError _ => text
    end.
Proof.
  intros Hfd Hne. unfold formattedRawJson. rewrite Hfd. now destruct text.
Qed.

(** X17. Copying always ends with exactly one toast.  The effects of
    [handleCopyToClipboard] are a list of copy attempts followed by one
    toast; there is no attempt exactly when the toast is the no-data
    warning, which happens exactly when the field text is absent, made of
    white space only, or the text of an empty object; and the toast is the
    success toast exactly when there was an attempt and either the modern
    clipboard was available and resolved or the legacy command succeeded. *)
Theorem copy_ends_with_one_toast (host : ClipboardHost) (this : Component) :
  exists attempts toast,
    handleCopyToClipboard host this = attempts ++ [RaiseToast toast] /\
    Forall (fun e => isToast e = false) attempts /\
    (attempts = [] <-> toast = noDataToast) /\
    (attempts = [] <->
     fieldData this = None \/
     exists text, fieldData this = Some text /\ (allWhiteSpace text = true \/ text = "{}")) /\
    (toast = copiedToast <->
     attempts <> [] /\
     (modernClipboard host && writeTextResolves host) || execCommandSucceeds host = true) /\
    (toast = copyFailedToast <->
     attempts <> [] /\
     (modernClipboard host && writeTextResolves host) || execCommandSucceeds host = false).
Proof.
  unfold handleCopyToClipboard, copyToClipboardLegacy.
  destruct (fieldData this) as [text | ] eqn:Hfd.
  2:{ exists [], noDataToast.
      split; [reflexivity | ]. split; [constructor | ]. split; [tauto | ].
      split; [split; [now left | reflexivity] | ].
      split; (split; [discriminate | intros [H _]; now destruct H]). }
  destruct (String.eqb text "" || String.eqb (trim text) "" || String.eqb text "{}")
    eqn:Hguard.
  { exists [], noDataToast.
    split; [reflexivity | ]. split; [constructor | ]. split; [tauto | ].
    split; [split; [ | reflexivity] | ].
    - intros _. right. exists text. split; [reflexivity | now apply noData_guard].
    - split; (split; [discriminate | intros [H _]; now destruct H]). }
  assert (Hnb : ~ (Some text = None \/
                   exists t, Some text = Some t /\ (allWhiteSpace t = true \/ t = "{}"))).
  { intros [H | (t & [= <-] & H)]; [congruence | ].
    apply noData_guard in H. congruence. }
  set (copied := match JSON_parse text with
                 | Parsed parsedJson => JSON_stringify_indented "" parsedJson
                 | SyntaxError _ => text
                 end).
  destruct (modernClipboard host), (writeTextResolves host), (execCommandSucceeds host); simpl;
    [ exists [TryWriteText copied], copiedToast
    | exists [TryWriteText copied], copiedToast
    | exists [TryWriteText copied; TryLegacyCopy copied], copiedToast
    | exists [TryWriteText copied; TryLegacyCopy copied], copyFailedToast
    | exists [TryLegacyCopy copied], copiedToast
    | exists [TryLegacyCopy copied], copyFailedToast
    | exists [TryLegacyCopy copied], copiedToast
    | exists [TryLegacyCopy copied], copyFailedToast ];
    (split; [reflexivity | ]); (split; [repeat constructor | ]);
    (split; [split; discriminate | ]);
    (split; [split; [discriminate | intros H; destruct (Hnb H)] | ]);
    (split;
     (split;
      [ intros H; first [discriminate H | split; [discriminate | reflexivity]]
      | intros [H1 H2]; first [reflexivity | discriminate H2] ])).
Qed.

(** X18. What is copied is what the raw view shows.  Every text that
    [handleCopyToClipboard] hands to a copy mechanism is [formattedRawJson]
    (the re-serialized document, or the text itself when it does not parse);
    the modern clipboard is tried only when it is available, and the legacy
    command only when the modern one was unavailable or rejected. *)
Theorem copy_attempts_the_raw_view (host : ClipboardHost) (this : Component) :
  Forall (fun e => e = TryWriteText (formattedRawJson this) \/
                   e = TryLegacyCopy (formattedRawJson this) \/
                   isToast e = true)
    (handleCopyToClipboard host this) /\
  (TryWriteText (formattedRawJson this) ∈ handleCopyToClipboard host this ->
   modernClipboard host = true) /\
  (TryLegacyCopy (formattedRawJson this) ∈ handleCopyToClipboard host this ->
   modernClipboard host && writeTextResolves host = false).
Proof.
  assert (Hblank : forall (e : CopyEffect) (P : Prop),
             isToast e = false -> e ∈ [RaiseToast noDataToast] -> P).
  { intros e P He Hin. apply list_elem_of_In in Hin. simpl in Hin.
    destruct Hin as [<- | []]. discriminate. }
  unfold handleCopyToClipboard, copyToClipboardLegacy.
  destruct (fieldData this) as [text | ] eqn:Hfd.
  2:{ split; [ | split]; [ | apply Hblank | apply Hblank]; try reflexivity.
      constructor; [right; right; reflexivity | constructor]. }
  destruct (String.eqb text "" || String.eqb (trim text) "" || String.eqb text "{}")
    eqn:Hguard.
  { split; [ | split]; [ | apply Hblank | apply Hblank]; try reflexivity.
    constructor; [right; right; reflexivity | constructor]. }
  clear Hblank.
  assert (Hne : text <> "") by (intros ->; discriminate).
  rewrite (formattedRawJson_text this text Hfd Hne).
  generalize (match JSON_parse text with
              | Parsed parsedJson => JSON_stringify_indented "" parsedJson
              | SyntaxError _ => text
              end). intros copied.
  destruct (modernClipboard host), (writeTextResolves host), (execCommandSucceeds host);
    cbn [andb];
    (split;
     [ repeat (constructor;
               [ first [ left; reflexivity | right; left; reflexivity
                       | right; right; reflexivity ] | ]);
       constructor
     | split; intros H; try reflexivity;
       apply list_elem_of_In in H; cbn [In] in H;
       repeat (destruct H as [H | H]; [discriminate H | ]); destruct H ]).
Qed.

Lemma JSON_stringify_indented_nonempty (indent : string) (v : Json) :
  (forall n : JsNumber, Number_toString n <> "") ->
  JSON_stringify_indented indent v <> "".
Proof.
  intros Hnum. destruct v as [ | [ | ] | n | s | [ | item items] | [ | kv props]];
    simpl; try discriminate. apply Hnum.
Qed.

(** X19. The raw view is empty only without data.  Provided numbers never
    print as the empty text, [formattedRawJson] is the empty text exactly
    when the field text is absent or empty; a text that does not parse is
    shown as it is. *)
Theorem formattedRawJson_empty_iff (this : Component) :
  (forall n : JsNumber, Number_toString n <> "") ->
  (formattedRawJson this = "" <-> fieldData this = None \/ fieldData this = Some "") /\
  (forall text message,
     fieldData this = Some text -> JSON_parse text = SyntaxError message ->
     formattedRawJson this = text).
Proof.
  intros Hnum. split.
  - unfold formattedRawJson. destruct (fieldData this) as [[ | c text] | ]; try tauto.
    destruct (JSON_parse _) as [value | message].
    + split; [intros H; now apply JSON_stringify_indented_nonempty in H | ].
      intros [H | H]; discriminate.
    + split; [discriminate | intros [H | H]; discriminate].
  - intros text message Hfd Hparse. unfold formattedRawJson. rewrite Hfd.
    destruct text; [reflexivity | now rewrite Hparse].
Qed.

End ViewsCoverage.

Lemma countChar_replaceUnderscores (s : string) : countChar "_" (replaceUnderscores s) = 0.
Proof.
  induction s as [ | c s IH]; [reflexivity | ].
  cbn [replaceUnderscores]. rewrite countChar_cons, IH.
  destruct (Ascii.eqb c "_") eqn:E; [reflexivity | now rewrite E].
Qed.

Lemma labelFromApiName_spec (apiName : string) :
  labelFromApiName apiName <> "" /\ countChar "_" (labelFromApiName apiName) = 0.
Proof.
  unfold labelFromApiName.
  pose proof (countChar_replaceUnderscores (stripCustomSuffix apiName)) as H.
  destruct (replaceUnderscores (stripCustomSuffix apiName)); [now split | ].
  split; [discriminate | exact H].
Qed.

(** X20. The field label always falls back to something.  When the object
    metadata has no entry for the field, [currentFieldLabel] is never empty:
    it is the label of the field definition when that is not empty, and
    otherwise a text derived from the api name that holds no underscore;
    and right after [extractFieldDefinition] has seen the field it is the
    display value, or the api name when there is no display value. *)
Theorem field_label_falls_back (this : Component) (view : Presentation) :
  match objectInfo view with
  | Some fields => fields !! fieldApiName this
  | None => None
  end = None ->
  currentFieldLabel this view <> "" /\
  (fieldDefinition view = None ->
   countChar "_" (currentFieldLabel this view) = 0) /\
  (forall displayValue : option string,
     fieldApiName this <> "" ->
     currentFieldLabel this (extractFieldDefinition (Some displayValue) this view)
     = match displayValue with
       | Some (String c rest) => String c rest
       | _ => fieldApiName this
       end).
Proof.
  intros Hinfo. unfold currentFieldLabel. rewrite Hinfo.
  destruct (labelFromApiName_spec (fieldApiName this)) as [Hne Hus].
  split; [ | split].
  - destruct (fieldDefinition view) as [[[ | c label] apiName] | ]; try exact Hne. discriminate.
  - intros ->. exact Hus.
  - intros displayValue Hname. simpl. rewrite Hinfo.
    destruct displayValue as [[ | c rest] | ]; try reflexivity;
      destruct (fieldApiName this); congruence.
Qed.

Section InvariantCoverage.
Context {JsNumber : Type} `{!NumberOps JsNumber} `{!JsonParser JsNumber}.

Lemma orNull_not_empty (x : option string) : orNull x <> Some "".
Proof. destruct x as [[ | c s] | ]; discriminate. Qed.

(** A rebuild re-establishes the invariant from what it needs of the error
    and of the field text. *)
Lemma processCurrentSelection_invariant (this : Component) :
  fieldData this <> Some "" ->
  error this = None \/ fieldData this = None \/ malformedFieldText this ->
  instanceInvariant (processCurrentSelection this).
Proof.
  intros Hne Hpre. unfold instanceInvariant, processCurrentSelection.
  rewrite processPayload_fieldData. split; [exact Hne | ].
  unfold processPayload, malformedFieldText in *.
  destruct (fieldData this) as [text | ] eqn:Hfd.
  2:{ destruct Hpre as [H | H]; [now left | right]. split; [reflexivity | now left]. }
  destruct (String.eqb text "" || String.eqb (trim text) "" || String.eqb text "{}")
    eqn:Hguard.
  - destruct Hpre as [H | [H | (t & m & [= <-] & Hws & Hnb & _)]];
      [now left | discriminate | ].
    now rewrite (guard_false _ Hws Hnb) in Hguard.
  - destruct (JSON_parse text) as [value | message] eqn:Hparse.
    + destruct Hpre as [H | [H | (t & m & [= <-] & _ & _ & Hp)]];
        [now left | discriminate | congruence].
    + right. split; [reflexivity | right]. exists text, message.
      simpl. rewrite Hfd. repeat split; try assumption.
      * destruct (allWhiteSpace text) eqn:Hws; [ | reflexivity].
        rewrite (proj2 (noData_guard text)) in Hguard by now left. discriminate.
      * intros ->. discriminate.
Qed.

Lemma invariant_pre (this : Component) :
  instanceInvariant this ->
  error this = None \/ fieldData this = None \/ malformedFieldText this.
Proof. intros [_ [H | [_ H]]]; tauto. Qed.

(** X21. The instance invariant is kept: it holds of a new instance and
    every handler preserves it: the record wire, the object-info wire, the
    toggle handler and the expand/collapse handler.  Hence, between
    handlers, the field text is never the empty text, and whenever an error
    is set the tree is empty. *)
Theorem instance_invariant_is_kept :
  (forall field : string, instanceInvariant (newComponent field)) /\
  (forall this : Component,
     instanceInvariant this ->
     (forall result : WireResult, instanceInvariant (wiredRecord result this)) /\
     (forall (result : ObjectInfoResult) (view : Presentation),
        instanceInvariant (fst (wiredObjectInfo result this view))) /\
     (forall k : string, instanceInvariant (handleToggleExpansion k this)) /\
     instanceInvariant (handleExpandCollapseAll this) /\
     (error this <> None -> jsonTree this = [] /\ hasPayload this = false)).
Proof.
  split.
  - intros field. split; [discriminate | now left].
  - intros this Hinv. pose proof (invariant_pre this Hinv) as Hpre.
    destruct Hinv as [Hne Herr].
    split; [ | split; [ | split; [ | split; [ | intros Hset; split]]]].
    + intros [ | data | message]; [now split | | ].
      * unfold wiredRecord.
        destruct (orNull (rd_fieldValue data)) eqn:Hv; simpl.
        -- apply processCurrentSelection_invariant; [ | now left].
           simpl. rewrite <- Hv. apply orNull_not_empty.
        -- destruct (rd_recordTypeAvailable data);
             (apply processCurrentSelection_invariant; [ | now left]); simpl;
             [apply orNull_not_empty | discriminate].
      * split; [discriminate | ]. right. split; [reflexivity | now left].
    + intros [ | fields | ] view; simpl; try (now split).
      now apply processCurrentSelection_invariant.
    + intros k. unfold handleToggleExpansion, rebuildTree.
      apply processCurrentSelection_invariant;
        unfold updateAllExpandedState; destruct (bool_decide _), (size _ =? 0); assumption.
    + unfold handleExpandCollapseAll.
      assert (Hfd : fieldData (expandAllNodes this) = fieldData this
                    /\ error (expandAllNodes this) = error this).
      { unfold expandAllNodes. destruct (fieldData this) as [[ | c text] | ] eqn:Hf;
          try (now split). destruct (JSON_parse _); simpl; now split. }
      destruct Hfd as [Hfd Her].
      apply processCurrentSelection_invariant; destruct (allExpanded this); simpl;
        unfold malformedFieldText in *; simpl; rewrite ?Hfd, ?Her; assumption.
    + destruct Herr as [H | [H _]]; [congruence | exact H].
    + destruct Herr as [H | [H _]]; [congruence | ]. unfold hasPayload. now rewrite H.
Qed.

End InvariantCoverage.

(** ** The further properties on the sample documents *)

(** The scenario document delivered by the record wire to a new instance. *)
Definition scenarioInstance : Component :=
  wiredRecord (WireData (mkRecordData (Some scenarioText) false None))
    (newComponent "Payload__c").

Lemma scenarioText_not_braces : scenarioText <> "{}".
Proof. intros H. vm_compute in H. discriminate H. Defined.

(** X5 on the scenario document: a key that belongs to no position changes
    nothing. *)
Lemma stale_keys_are_inert_scenario :
  buildJsonTree {[ "gone.x_3" ]} scenarioDoc (KStr "") 0
  = buildJsonTree ∅ scenarioDoc (KStr "") 0.
Proof.
  apply stale_keys_are_inert. intros rows ks Hrows Hks.
  assert (Hkey : generateKey (extendPath (KStr "") ks) (0 + (length rows - 1)) <> "gone.x_3").
  { destruct rows as [ | [ | [ | i]] [ | [ | j] [ | l below]]]; try congruence;
      vm_compute in Hks; try discriminate Hks;
      injection Hks as <-; vm_compute; discriminate. }
  split; intros H; [apply elem_of_singleton in H; contradiction | ].
  now apply elem_of_empty in H.
Defined.

(** X6 on the scenario document: the row of [c] below the expanded [b]. *)
Lemma row_describes_its_position_scenario :
  exists (n : DisplayNode) (ks : list JsKey) (value : JsonValue nat),
    nodeAt (buildJsonTree {[ "b_0" ]} scenarioDoc (KStr "") 0) [1; 0] = Some n /\
    keysAt scenarioDoc [1; 0] = Some ks /\ valueAt scenarioDoc [1; 0] = Some value /\
    node_level n = 1 /\
    last ks = Some (node_displayKey n) /\
    node_key n = generateKey (extendPath (KStr "") ks) (node_level n) /\
    node_type n = getValueType value /\
    node_isArray n = Some (Array_isArray value).
Proof.
  assert (Hn : nodeAt (buildJsonTree {[ "b_0" ]} scenarioDoc (KStr "") 0) [1; 0]
               = Some (mkDisplayNode "b.c_1" (KStr "c") "2" "number" 1 false false
                         (Some false) []))
    by (vm_compute; reflexivity).
  eexists.
  destruct (row_describes_its_position {[ "b_0" ]} scenarioDoc (KStr "") 0 [1; 0] _
              eq_refl Hn) as (ks & value & H).
  exists ks, value. split; [exact Hn | exact H].
Defined.

(** The row of [b] in the scenario tree, collapsed and expanded. *)
Definition collapsedRowB : DisplayNode :=
  mkDisplayNode "b_0" (KStr "b") "{1 properties}" "object" 0 true false (Some false) [].

Definition expandedRowB : DisplayNode :=
  mkDisplayNode "b_0" (KStr "b") "{1 properties}" "object" 0 true true (Some false)
    [mkDisplayNode "b.c_1" (KStr "c") "2" "number" 1 false false (Some false) []].

(** X7 on the scenario: toggling the collapsed row [b]. *)
Lemma toggle_expands_scenario :
  exists n' : DisplayNode,
    nodeAt (jsonTree (handleToggleExpansion "b_0" scenarioInstance)) [1] = Some n' /\
    node_key n' = "b_0" /\ node_isExpanded n' = true /\ node_children n' <> [].
Proof.
  assert (Hfd : fieldData scenarioInstance = Some scenarioText) by (vm_compute; reflexivity).
  assert (Hws : allWhiteSpace scenarioText = false) by (vm_compute; reflexivity).
  assert (Hparse : JSON_parse scenarioText = Parsed scenarioDoc) by (vm_compute; reflexivity).
  assert (Htree : jsonTree scenarioInstance
                  = buildJsonTree (expandedNodes scenarioInstance) scenarioDoc (KStr "") 0)
    by (vm_compute; reflexivity).
  assert (Hn : nodeAt (jsonTree scenarioInstance) [1] = Some collapsedRowB)
    by (vm_compute; reflexivity).
  exact (toggle_expands_a_collapsed_row scenarioInstance scenarioText scenarioDoc [1]
           collapsedRowB "b_0" Hfd Hws scenarioText_not_braces Hparse Htree Hn
           eq_refl eq_refl).
Defined.

(** X8 on the scenario: toggling the row [b] again. *)
Lemma toggle_collapses_scenario :
  exists n' : DisplayNode,
    nodeAt (jsonTree (handleToggleExpansion "b_0"
                        (handleToggleExpansion "b_0" scenarioInstance))) [1] = Some n' /\
    node_key n' = "b_0" /\ node_isExpanded n' = false /\ node_children n' = [].
Proof.
  assert (Hfd : fieldData (handleToggleExpansion "b_0" scenarioInstance) = Some scenarioText)
    by (vm_compute; reflexivity).
  assert (Hws : allWhiteSpace scenarioText = false) by (vm_compute; reflexivity).
  assert (Hparse : JSON_parse scenarioText = Parsed scenarioDoc) by (vm_compute; reflexivity).
  assert (Htree : jsonTree (handleToggleExpansion "b_0" scenarioInstance)
                  = buildJsonTree (expandedNodes (handleToggleExpansion "b_0" scenarioInstance))
                      scenarioDoc (KStr "") 0)
    by (vm_compute; reflexivity).
  assert (Hn : nodeAt (jsonTree (handleToggleExpansion "b_0" scenarioInstance)) [1]
               = Some expandedRowB)
    by (vm_compute; reflexivity).
  exact (toggle_collapses_an_expanded_row (handleToggleExpansion "b_0" scenarioInstance)
           scenarioText scenarioDoc [1] expandedRowB "b_0" Hfd Hws scenarioText_not_braces
           Hparse Htree Hn eq_refl eq_refl).
Defined.

(** X19 with the naturals as numbers, on the scenario instance. *)
Lemma formattedRawJson_scenario :
  (formattedRawJson scenarioInstance = "" <->
   fieldData scenarioInstance = None \/ fieldData scenarioInstance = Some "") /\
  (forall text message,
     fieldData scenarioInstance = Some text -> JSON_parse text = SyntaxError message ->
     formattedRawJson scenarioInstance = text).
Proof.
  exact (formattedRawJson_empty_iff (JsNumber := nat) scenarioInstance decimal_nonempty).
Defined.

(** X20 on a new instance without metadata: the label comes from the api
    name. *)
Lemma field_label_of_new_instance :
  currentFieldLabel (newComponent "Payload__c") newPresentation <> "" /\
  (fieldDefinition newPresentation = None ->
   countChar "_" (currentFieldLabel (newComponent "Payload__c") newPresentation) = 0) /\
  (forall displayValue : option string,
     fieldApiName (newComponent "Payload__c") <> "" ->
     currentFieldLabel (newComponent "Payload__c")
       (extractFieldDefinition (Some displayValue) (newComponent "Payload__c") newPresentation)
     = match displayValue with
       | Some (String c rest) => String c rest
       | _ => fieldApiName (newComponent "Payload__c")
       end).
Proof.
  exact (field_label_falls_back (newComponent "Payload__c") newPresentation eq_refl).
Defined.

(** X21 on the instance left by a malformed text: the invariant holds there
    and after a toggle. *)
Lemma instance_invariant_after_malformed_text :
  instanceInvariant
    (handleToggleExpansion "b_0"
       (wiredRecord (WireData (mkRecordData (Some "{invalid") false None))
          (newComponent "Payload__c"))).
Proof.
  destruct (instance_invariant_is_kept (JsNumber := nat)) as [Hnew Hstep].
  destruct (Hstep _ (Hnew "Payload__c")) as (Hwire & _).
  destruct (Hstep _ (Hwire (WireData (mkRecordData (Some "{invalid") false None))))
    as (_ & _ & Htoggle & _).
  exact (Htoggle "b_0").
Defined.
